(** * syncthing_stats: a shallow embedding of [syncthing_stats.go]

    The program polls Syncthing's REST API and prints influx line-protocol
    records.  The embedding follows the Go source function by function.
    What the source takes from outside the repository is an explicit
    parameter of the model (record [Env]): the URL parser behind
    [http.NewRequest], the transport behind [client.Do], the
    [encoding/json] decoders and the order in which [range] visits a map.
    The pieces of the Go standard library whose exact behaviour the
    properties depend on ([strings.Replace], [time.Time.Before],
    [time.Time.Sub], [time.Duration.Seconds]) are written out. *)

From Stdlib Require Import ZArith Ascii String.
From Stdlib Require Import Floats.PrimFloat Numbers.Cyclic.Int63.Uint63.
From stdpp Require Import gmap strings list fin_maps.

Open Scope Z_scope.

(* ===================================================================== *)
(** ** Go's [time] package, as far as the handlers use it *)
(* ===================================================================== *)

Module GoTime.

(** An instant without monotonic clock reading (what decoding JSON and
    [time.Date] produce): whole seconds since the Unix epoch and the
    nanoseconds within that second, [0 <= nsec < 10^9]. *)
Record Time := mkTime { sec : Z; nsec : Z }.

(** [time.Duration] is an [int64] count of nanoseconds. *)
Definition Duration := Z.

Definition Second : Duration := 1000000000.
Definition minDuration : Duration := - 2 ^ 63.
Definition maxDuration : Duration := 2 ^ 63 - 1.

(** Two's complement wrap-around of [int64] arithmetic. *)
Definition wrap64 (z : Z) : Z := (z + 2 ^ 63) mod 2 ^ 64 - 2 ^ 63.

(** [time.Date(1970, 1, 1, 0, 0, 0, 0, time.UTC)]. *)
Definition unixEpoch : Time := mkTime 0 0.

(** [t.Before(u)]. *)
Definition Before (t u : Time) : bool :=
  (sec t <? sec u) || ((sec t =? sec u) && (nsec t <? nsec u)).

(** [t.Equal(u)]. *)
Definition Equal (t u : Time) : bool :=
  (sec t =? sec u) && (nsec t =? nsec u).

(** [t.Add(d)]: [d / 1e9] and [d % 1e9] truncate towards zero. *)
Definition Add (t : Time) (d : Duration) : Time :=
  let dsec := Z.quot d 1000000000 in
  let ns := nsec t + Z.rem d 1000000000 in
  if 1000000000 <=? ns then mkTime (sec t + (dsec + 1)) (ns - 1000000000)
  else if ns <? 0 then mkTime (sec t + (dsec - 1)) (ns + 1000000000)
  else mkTime (sec t + dsec) ns.

(** [t.Sub(u)]: the difference computed in [int64], replaced by the
    largest or smallest duration when it does not fit. *)
Definition Sub (t u : Time) : Duration :=
  let d := wrap64 (wrap64 (wrap64 (sec t - sec u) * Second)
                   + wrap64 (nsec t - nsec u)) in
  if Equal (Add u d) t then d
  else if Before t u then minDuration
  else maxDuration.

(** The exact distance between two instants, in nanoseconds. *)
Definition nanosBetween (t u : Time) : Z :=
  (sec t - sec u) * 1000000000 + (nsec t - nsec u).

(** [float64(z)] for an integer of magnitude below [2^63]. *)
Definition float64_of_int (z : Z) : float :=
  if z <? 0 then PrimFloat.opp (PrimFloat.of_uint63 (Uint63.of_Z (- z)))
  else PrimFloat.of_uint63 (Uint63.of_Z z).

(** [d.Seconds()]:
    [sec := d / Second; nsec := d % Second;
     return float64(sec) + float64(nsec)/1e9]. *)
Definition Seconds (d : Duration) : float :=
  PrimFloat.add (float64_of_int (Z.quot d Second))
                (PrimFloat.div (float64_of_int (Z.rem d Second))
                               (float64_of_int 1000000000)).

(** A well-formed instant has its nanoseconds within the second. *)
Definition wf (t : Time) : Prop := 0 <= nsec t < 1000000000.

End GoTime.

(* ===================================================================== *)
(** ** Go's [strings.Replace], for a one-byte pattern *)
(* ===================================================================== *)

Module GoStrings.

(** [strings.Replace(s, old, new, -1)] where [old] is the one-byte
    string made of [old]: every occurrence is replaced, left to right. *)
Fixpoint ReplaceAll (s : string) (old : ascii) (new : string) : string :=
  match s with
  | EmptyString => EmptyString
  | String c rest =>
      if Ascii.eqb c old then new +:+ ReplaceAll rest old new
      else String c (ReplaceAll rest old new)
  end.

(** The call the source makes on tag values:
    [strings.Replace(v, " ", "\\ ", -1)]. *)
Definition escapeSpaces (v : string) : string :=
  ReplaceAll v " "%char "\ ".

(** Number of occurrences of a byte. *)
Fixpoint count (c : ascii) (s : string) : nat :=
  match s with
  | EmptyString => O
  | String d rest => ((if Ascii.eqb d c then 1 else 0) + count c rest)%nat
  end.

(** The bytes of [s] other than [c], in order. *)
Fixpoint without (c : ascii) (s : string) : string :=
  match s with
  | EmptyString => EmptyString
  | String d rest =>
      if Ascii.eqb d c then without c rest else String d (without c rest)
  end.

Definition space : ascii := " "%char.
Definition backslash : ascii := "\"%char.

(** Whether every space of a string stands right after a backslash. *)
Fixpoint spacesEscapedFrom (prev : ascii) (s : string) : bool :=
  match s with
  | EmptyString => true
  | String c rest =>
      (negb (Ascii.eqb c space) || Ascii.eqb prev backslash)
      && spacesEscapedFrom c rest
  end.

Definition spacesEscaped (s : string) : bool := spacesEscapedFrom "x"%char s.

End GoStrings.

(* ===================================================================== *)
(** ** Data model: the structs the JSON bodies are decoded into *)
(* ===================================================================== *)

(** A Go [error], kept as the message [err.Error()] returns;
    [fmt.Errorf("prefix: %s", err)] is then string concatenation. *)
Abbreviation error := string (only parsing).

(** The Go pair [(v, err)] of a fallible call. *)
Abbreviation Result A := (sum string A) (only parsing).

Record FolderConfig := mkFolderConfig {
  fc_ID : string;
  fc_Label : string;
  fc_RescanIntervalS : Z;
  fc_Type : string
}.

Record FolderStats := mkFolderStats {
  fs_Errors : Z;
  fs_GlobalBytes : Z;
  fs_GlobalDeleted : Z;
  fs_GlobalDirectories : Z;
  fs_GlobalFiles : Z;
  fs_GlobalSymlinks : Z;
  fs_GlobalTotalItems : Z;
  fs_InSyncBytes : Z;
  fs_InSyncFiles : Z;
  fs_LocalBytes : Z;
  fs_LocalDeleted : Z;
  fs_LocalDirectories : Z;
  fs_LocalFiles : Z;
  fs_LocalSymlinks : Z;
  fs_LocalTotalItems : Z;
  fs_NeedBytes : Z;
  fs_NeedDeletes : Z;
  fs_NeedDirectories : Z;
  fs_NeedFiles : Z;
  fs_NeedSymlinks : Z;
  fs_NeedTotalItems : Z;
  fs_PullErrors : Z
}.

Record Report := mkReport {
  rp_NumFolders : Z;
  rp_NumDevices : Z;
  rp_TotalFiles : Z;
  rp_TotalMiB : Z;
  rp_MaxFolderMiB : Z;
  rp_Sha256Perf : float;
  rp_HashPerf : float;
  rp_Uptime : Z;
  rp_MemoryUsageMiB : Z
}.

Record ConnectionStatItem := mkConnectionStatItem {
  cs_Address : string;
  cs_At : GoTime.Time;
  cs_ClientVersion : string;
  cs_Connected : bool;
  cs_Crypto : string;
  cs_InBytesTotal : Z;
  cs_OutBytesTotal : Z;
  cs_Paused : bool;
  cs_Type : string
}.

Record Connections := mkConnections {
  cn_Total : ConnectionStatItem;
  cn_Connections : gmap string ConnectionStatItem
}.

Record DeviceConfig := mkDeviceConfig {
  dc_DeviceID : string;
  dc_Name : string
}.

Record DeviceStatItem := mkDeviceStatItem {
  ds_LastSeen : GoTime.Time;
  ds_LastConnectionDurationS : float
}.

(** [type Devices map[string]DeviceStatItem]. *)
Abbreviation Devices := (gmap string DeviceStatItem).

(** The three command-line flags, after [flag.Parse()] has returned. *)
Record Flags := mkFlags {
  server : string;
  apiKeyFlag : string;
  useFullReportFlag : bool
}.

Definition defaultFlags : Flags :=
  mkFlags "http://localhost:8384" "" false.

(* ===================================================================== *)
(** ** What the process does: requests and writes *)
(* ===================================================================== *)

Record Request := mkRequest {
  rq_Method : string;
  rq_URL : string;
  rq_Header : list (string * string)
}.

Record Response := mkResponse {
  rs_StatusCode : Z;
  rs_Body : string
}.

(** A value substituted for a [%d] or a [%f] verb. *)
Inductive FieldValue :=
| VInt (n : Z)
| VFloat (x : float).

(** One [fmt.Printf] of a record: the measurement name, the tag values as
    they are substituted into the format string, and the field values. *)
Record Line := mkLine {
  measurement : string;
  tags : list (string * string);
  fields : list (string * FieldValue)
}.

(** The text of a line up to the blank that separates tags from fields,
    as [Printf] writes it: [measurement,tag=value,tag=value]. *)
Definition line_head (l : Line) : string :=
  measurement l +:+
  String.concat "" (map (fun kv => "," +:+ fst kv +:+ "=" +:+ snd kv) (tags l)).

(** The value a key is bound to in a tag or field list (first binding). *)
Fixpoint assoc {A} (name : string) (l : list (string * A)) : option A :=
  match l with
  | [] => None
  | (k, v) :: rest => if String.eqb k name then Some v else assoc name rest
  end.

Definition tag_value (name : string) (l : Line) : option string :=
  assoc name (tags l).


Inductive Event :=
| HttpDo (timeout : GoTime.Duration) (req : Request)
    (** [client.Do(req)] on a client with that [Timeout] *)
| Stdout (l : Line)
    (** [fmt.Printf] of a record line *)
| StdoutText (s : string)
    (** [fmt.Println] *)
| Stderr (s : string).
    (** [os.Stderr.Write] *)

(** The goroutines of a run: the top-level handlers and one per folder. *)
Inductive UnitId :=
| UFolders
| UConnections
| UDevices
| UReport
| UFolderStats (i : nat).

(** The world outside the repository. *)
Record Env := mkEnv {
  (** [url.Parse] as [http.NewRequest] calls it: the error, if any. *)
  url_Parse_error : string -> option error;
  (** [client.Do]: what the exchange gives, for the goroutine that asks. *)
  client_Do : UnitId -> Request -> Result Response;
  (** [json.NewDecoder(body).Decode(&v)] at each target type. *)
  decodeFolderConfigs : string -> Result (list FolderConfig);
  decodeFolderStats : string -> Result FolderStats;
  decodeConnections : string -> Result Connections;
  decodeDeviceConfigs : string -> Result (list DeviceConfig);
  decodeDevices : string -> Result Devices;
  decodeReport : string -> Result Report;
  (** [range] over a map visits every entry once, in an order the
      language leaves open. *)
  rangeConnections : gmap string ConnectionStatItem ->
                     list (string * ConnectionStatItem);
  rangeConnections_perm : forall m, rangeConnections m ≡ₚ map_to_list m;
  rangeDevices : Devices -> list (string * DeviceStatItem);
  rangeDevices_perm : forall m, rangeDevices m ≡ₚ map_to_list m
}.

(** A writer monad: the events a call performs, in order, and its value. *)
Definition IO (A : Type) : Type := (list Event * A)%type.

#[export] Instance IO_ret : MRet IO := fun A a => ([], a).

#[export] Instance IO_bind : MBind IO := fun A B k c =>
  let r := k (snd c) in (fst c ++ fst r, snd r).

Definition emit (e : Event) : IO unit := ([e], tt).

(** A [for ... range] loop whose body only performs events. *)
Fixpoint forEach {A} (l : list A) (body : A -> IO unit) : IO unit :=
  match l with
  | [] => mret tt
  | a :: rest => body a ;; forEach rest body
  end.

Definition events {A} (c : IO A) : list Event := fst c.
Definition value {A} (c : IO A) : A := snd c.

(* ===================================================================== *)
(** ** The program *)
(* ===================================================================== *)

Section Program.

Variable env : Env.
(** [*server], read by [makeRequest]. *)
Variable srv : string.

(** [http.NewRequest(method, url, nil)]: fails when the URL does not
    parse; the new request has no header yet. *)
Definition http_NewRequest (method url : string) : Result Request :=
  match url_Parse_error env url with
  | Some err => inl err
  | None => inr (mkRequest method url [])
  end.

(** [req.Header.Add(key, value)] (header names compare without case). *)
Definition Header_Add (req : Request) (key val : string) : Request :=
  mkRequest (rq_Method req) (rq_URL req) (rq_Header req ++ [(key, val)]).

(** [Timeout: 2 * time.Second]. *)
Definition clientTimeout : GoTime.Duration := 2 * GoTime.Second.

(** [makeRequest(apiKey, url)], called by goroutine [u] (the transport may
    answer the same request differently to different goroutines, as for
    two folders with the same id). *)
Definition makeRequest (u : UnitId) (apiKey url : string)
  : IO (Result Response) :=
  match http_NewRequest "GET" (srv +:+ "/" +:+ url) with
  | inl err => mret (inl ("unable to create HTTP request: " +:+ err))
  | inr req =>
      let req := Header_Add req "X-API-Key" apiKey in
      emit (HttpDo clientTimeout req) ;;
      match client_Do env u req with
      | inl err => mret (inl ("HTTP request failed: " +:+ err))
      | inr resp => mret (inr resp)
      end
  end.

Definition b2i (b : bool) : Z := if b then 1 else 0.

(** [len(m)] as a Go [int]. *)
Definition len {V} (m : gmap string V) : Z := Z.of_nat (size m).

Definition connectionTotalsLine (stats : Connections) : Line :=
  mkLine "syncthing_connection_totals" []
    [("number_of_connections", VInt (len (cn_Connections stats)));
     ("in_bytes", VInt (cs_InBytesTotal (cn_Total stats)));
     ("out_bytes", VInt (cs_OutBytesTotal (cn_Total stats)));
     ("paused", VInt (b2i (cs_Paused (cn_Total stats))))].

Definition connectionLine (connectionId : string)
    (connectionStat : ConnectionStatItem) : Line :=
  mkLine "syncthing_connection" [("client_id", connectionId)]
    [("connected", VInt (b2i (cs_Connected connectionStat)));
     ("paused", VInt (b2i (cs_Paused connectionStat)));
     ("in_bytes", VInt (cs_InBytesTotal connectionStat));
     ("out_bytes", VInt (cs_OutBytesTotal connectionStat))].

Definition cutOffTime : GoTime.Time := GoTime.unixEpoch.

Definition handleSystemConnections (apiKey : string) : IO (option error) :=
  r ← makeRequest UConnections apiKey "rest/system/connections";
  match r with
  | inl err => mret (Some err)
  | inr resp =>
      match decodeConnections env (rs_Body resp) with
      | inl err => mret (Some ("invalid response body: " +:+ err))
      | inr stats =>
          emit (Stdout (connectionTotalsLine stats)) ;;
          forEach (rangeConnections env (cn_Connections stats))
            (fun kv =>
               if GoTime.Before cutOffTime (cs_At kv.2)
               then emit (Stdout (connectionLine kv.1 kv.2))
               else mret tt) ;;
          mret None
      end
  end.

(** The loop [deviceNames[device.DeviceID] = device.Name]. *)
Definition buildDeviceNames (deviceConfigs : list DeviceConfig)
  : gmap string string :=
  foldl (fun names device => <[dc_DeviceID device := dc_Name device]> names)
        ∅ deviceConfigs.

(** [deviceNames[deviceId]]: the zero value when the key is absent. *)
Definition nameOf (deviceNames : gmap string string) (deviceId : string)
  : string :=
  default "" (deviceNames !! deviceId).

Definition deviceTotalsLine (stats : Devices) : Line :=
  mkLine "syncthing_device_totals" []
    [("number_of_devices", VInt (len stats))].

Definition deviceLine (deviceNames : gmap string string)
    (deviceId : string) (deviceStat : DeviceStatItem) : Line :=
  mkLine "syncthing_device"
    [("device_id", deviceId);
     ("device_name", GoStrings.escapeSpaces (nameOf deviceNames deviceId))]
    [("last_seen",
      VFloat (GoTime.Seconds (GoTime.Sub (ds_LastSeen deviceStat) cutOffTime)));
     ("last_connection_duration",
      VFloat (ds_LastConnectionDurationS deviceStat))].

Definition handleDevices (apiKey : string) : IO (option error) :=
  r ← makeRequest UDevices apiKey "rest/config/devices";
  match r with
  | inl err => mret (Some err)
  | inr resp =>
      match decodeDeviceConfigs env (rs_Body resp) with
      | inl err => mret (Some ("invalid response body: " +:+ err))
      | inr deviceConfigs =>
          let deviceNames := buildDeviceNames deviceConfigs in
          r ← makeRequest UDevices apiKey "rest/stats/device";
          match r with
          | inl err => mret (Some err)
          | inr resp =>
              match decodeDevices env (rs_Body resp) with
              | inl err => mret (Some ("invalid response body: " +:+ err))
              | inr stats =>
                  emit (Stdout (deviceTotalsLine stats)) ;;
                  forEach (rangeDevices env stats)
                    (fun kv =>
                       if GoTime.Before cutOffTime (ds_LastSeen kv.2)
                       then emit (Stdout (deviceLine deviceNames kv.1 kv.2))
                       else mret tt) ;;
                  mret None
              end
          end
      end
  end.

Definition folderLine (folderConfig : FolderConfig) (stats : FolderStats)
  : Line :=
  mkLine "syncthing_folder"
    [("folder_id", fc_ID folderConfig);
     ("folder_label", GoStrings.escapeSpaces (fc_Label folderConfig))]
    [("rescanInterval", VInt (fc_RescanIntervalS folderConfig));
     ("errors", VInt (fs_Errors stats));
     ("global_bytes", VInt (fs_GlobalBytes stats));
     ("global_deleted", VInt (fs_GlobalDeleted stats));
     ("global_directories", VInt (fs_GlobalDirectories stats));
     ("global_files", VInt (fs_GlobalFiles stats));
     ("global_symlinks", VInt (fs_GlobalSymlinks stats));
     ("global_total_items", VInt (fs_GlobalTotalItems stats));
     ("insync_bytes", VInt (fs_InSyncBytes stats));
     ("insync_files", VInt (fs_InSyncFiles stats));
     ("local_bytes", VInt (fs_LocalBytes stats));
     ("local_deleted", VInt (fs_LocalDeleted stats));
     ("local_directories", VInt (fs_LocalDirectories stats));
     ("local_files", VInt (fs_LocalFiles stats));
     ("local_symlinks", VInt (fs_LocalSymlinks stats));
     ("local_total_items", VInt (fs_LocalTotalItems stats));
     ("need_bytes", VInt (fs_NeedBytes stats));
     ("need_deletes", VInt (fs_NeedDeletes stats));
     ("need_directories", VInt (fs_NeedDirectories stats));
     ("need_files", VInt (fs_NeedFiles stats));
     ("need_symlinks", VInt (fs_NeedSymlinks stats));
     ("need_total_items", VInt (fs_NeedTotalItems stats));
     ("pull_errors", VInt (fs_PullErrors stats))].

(** The goroutine started for the [i]-th folder of the list. *)
Definition handleFolderStats (i : nat) (apiKey : string)
    (folderConfig : FolderConfig) : IO unit :=
  r ← makeRequest (UFolderStats i) apiKey
        ("rest/db/status?folder=" +:+ fc_ID folderConfig);
  match r with
  | inl err =>
      emit (Stderr ("Unable to read status for " +:+ fc_ID folderConfig
                      +:+ ": " +:+ err))
  | inr resp =>
      match decodeFolderStats env (rs_Body resp) with
      | inl err => emit (Stderr ("invalid response body: " +:+ err))
      | inr stats => emit (Stdout (folderLine folderConfig stats))
      end
  end.

(** The loop [for _, folder := range folderConfig { wg.Add(1);
    go handleFolderStats(apiKey, folder, wg) }]: the goroutines it
    starts, in list order, each given as the events it performs. *)
Definition spawnFolderStats (apiKey : string)
    (folderConfig : list FolderConfig) : list (list Event) :=
  imap (fun i folder => events (handleFolderStats i apiKey folder))
       folderConfig.

(** [handleFolders]: its own events and result, and the goroutines it
    has started by the time it returns. *)
Definition handleFolders (apiKey : string)
  : IO (option error) * list (list Event) :=
  let c := makeRequest UFolders apiKey "rest/config/folders" in
  match value c with
  | inl err => ((events c, Some err), [])
  | inr resp =>
      match decodeFolderConfigs env (rs_Body resp) with
      | inl err =>
          ((events c, Some ("invalid response body: " +:+ err)), [])
      | inr folderConfig =>
          ((events c, None), spawnFolderStats apiKey folderConfig)
      end
  end.

Definition reportLine (stats : Report) : Line :=
  mkLine "syncthing_report" []
    [("num_folders", VInt (rp_NumFolders stats));
     ("num_devices", VInt (rp_NumDevices stats));
     ("total_files", VInt (rp_TotalFiles stats));
     ("total_mib", VInt (rp_TotalMiB stats));
     ("max_folder_mib", VInt (rp_MaxFolderMiB stats));
     ("sha256perf", VFloat (rp_Sha256Perf stats));
     ("hashperf", VFloat (rp_HashPerf stats));
     ("uptime", VInt (rp_Uptime stats));
     ("memory_usage_mib", VInt (rp_MemoryUsageMiB stats))].

Definition handleReport (apiKey : string) : IO (option error) :=
  r ← makeRequest UReport apiKey "rest/svc/report";
  match r with
  | inl err => mret (Some err)
  | inr resp =>
      match decodeReport env (rs_Body resp) with
      | inl err => mret (Some ("invalid response body: " +:+ err))
      | inr stats => emit (Stdout (reportLine stats)) ;; mret None
      end
  end.

(** A top-level handler, [func(string, *sync.WaitGroup) error]: what it
    does itself and returns, and the goroutines it has started. *)
Definition Handler : Type :=
  string -> IO (option error) * list (list Event).

(** A handler that starts no goroutine. *)
Definition plain (h : string -> IO (option error)) : Handler :=
  fun apiKey => (h apiKey, []).

(** A goroutine of [main]: its own events, then those of the goroutines
    it started (every [go] statement of the program comes after the last
    event of the goroutine that executes it). *)
Record Thread := mkThread {
  own : list Event;
  children : list (list Event)
}.

(** [wrapHandler]: run the handler, write its error if it has one. *)
Definition wrapHandler (handler : Handler) (apiKey : string) : Thread :=
  let r := handler apiKey in
  mkThread
    (events (err ← r.1;
             match err with
             | Some e => emit (Stderr ("Failed: " +:+ e))
             | None => mret tt
             end))
    r.2.

(** [allHandlers], after the optional [append]. *)
Definition allHandlers (useFullReport : bool) : list Handler :=
  [handleFolders; plain handleSystemConnections; plain handleDevices]
  ++ (if useFullReport then [plain handleReport] else []).

End Program.

(** The goroutines [main] starts when the API key is not empty. *)
Definition mainThreads (env : Env) (f : Flags) : list Thread :=
  map (fun handler => wrapHandler handler (apiKeyFlag f))
      (allHandlers env (server f) (useFullReportFlag f)).

(* ===================================================================== *)
(** ** Runs: goroutines interleave *)
(* ===================================================================== *)

(** [Interleave us tr]: [tr] takes every element of every list of [us]
    once and keeps the order inside each list. *)
Inductive Interleave {A : Type} : list (list A) -> list A -> Prop :=
| Interleave_done us :
    Forall (fun u => u = []) us -> Interleave us []
| Interleave_step us1 a u us2 tr :
    Interleave (us1 ++ u :: us2) tr ->
    Interleave (us1 ++ (a :: u) :: us2) (a :: tr).

(** What one goroutine of [main], with the goroutines it started, can
    contribute to a run. *)
Definition ThreadRuns (t : Thread) (tr : list Event) : Prop :=
  exists x, Interleave (children t) x /\ tr = own t ++ x.

(** [Runs env f tr code]: [main] with flags [f] can perform the events [tr]
    and exit with status [code].  [wg.Wait()] returns once every goroutine
    has called [Done]; a folder goroutine is added to the wait group before
    the deferred [Done] of [handleFolders] runs, so the process ends after
    all of them. *)
Definition Runs (env : Env) (f : Flags) (tr : list Event) (code : Z) : Prop :=
  if String.eqb (apiKeyFlag f) ""
  then tr = [StdoutText "Invalid API key"] /\ code = 1
  else exists trs,
      Forall2 ThreadRuns (mainThreads env f) trs /\
      Interleave trs tr /\ code = 0.

(** One schedule, computed: every goroutine runs to its end before the
    next one starts. *)
Definition runThread (t : Thread) : list Event :=
  own t ++ concat (children t).

Definition main (env : Env) (f : Flags) : list Event * Z :=
  if String.eqb (apiKeyFlag f) ""
  then ([StdoutText "Invalid API key"], 1)
  else (concat (map runThread (mainThreads env f)), 0).

(** *** Reading a trace *)

Definition stdoutLines (tr : list Event) : list Line :=
  omap (fun e => match e with Stdout l => Some l | _ => None end) tr.

Definition stderrWrites (tr : list Event) : list string :=
  omap (fun e => match e with Stderr s => Some s | _ => None end) tr.

Definition requests (tr : list Event) : list Request :=
  omap (fun e => match e with HttpDo _ r => Some r | _ => None end) tr.

Definition linesOf (m : string) (tr : list Event) : list Line :=
  filter (fun l => measurement l = m) (stdoutLines tr).

(** Every record line of the trace has one of the measurement names. *)
Definition emitsOnly (ms : list string) (tr : list Event) : Prop :=
  Forall (fun l => measurement l ∈ ms) (stdoutLines tr).

(* ===================================================================== *)
(** ** Names for what the handlers compute on the way *)
(* ===================================================================== *)

(** These are not functions of the source: they name the outcome of a
    handler's request-and-decode steps and the body of its loop, so that
    statements can refer to them. *)

(** The request [makeRequest] builds for a key and a path. *)
Definition apiRequest (srv apiKey path : string) : Request :=
  mkRequest "GET" (srv +:+ "/" +:+ path) [("X-API-Key", apiKey)].

Section RangeBody.

Context {V : Type}.
Variable keep : V -> bool.
Variable line : string -> V -> Line.

(** The body shared by the two loops: print the entry's line when the
    entry passes the test. *)
Definition loopBody (kv : string * V) : IO unit :=
  if keep kv.2 then emit (Stdout (line kv.1 kv.2)) else mret tt.

Definition keptLine (kv : string * V) : option Line :=
  if keep kv.2 then Some (line kv.1 kv.2) else None.

End RangeBody.

(** The test of the connections loop. *)
Definition updated (connectionStat : ConnectionStatItem) : bool :=
  GoTime.Before cutOffTime (cs_At connectionStat).

(** The test of the devices loop. *)
Definition seen (deviceStat : DeviceStatItem) : bool :=
  GoTime.Before cutOffTime (ds_LastSeen deviceStat).

Section Outcomes.

Variables (env : Env) (srv apiKey : string).

(** The status of one folder: the statistics, or what is written to
    standard error instead. *)
Definition fetchFolderStats (i : nat) (folderConfig : FolderConfig)
  : Result FolderStats :=
  match value (makeRequest env srv (UFolderStats i) apiKey
                 ("rest/db/status?folder=" +:+ fc_ID folderConfig)) with
  | inl err =>
      inl ("Unable to read status for " +:+ fc_ID folderConfig
             +:+ ": " +:+ err)
  | inr resp =>
      match decodeFolderStats env (rs_Body resp) with
      | inl err => inl ("invalid response body: " +:+ err)
      | inr stats => inr stats
      end
  end.

(** The report: the decoded counters, or the handler's error. *)
Definition fetchReport : Result Report :=
  match value (makeRequest env srv UReport apiKey "rest/svc/report") with
  | inl err => inl err
  | inr resp =>
      match decodeReport env (rs_Body resp) with
      | inl err => inl ("invalid response body: " +:+ err)
      | inr stats => inr stats
      end
  end.

(** The folder list: decoded, or the handler's error. *)
Definition fetchFolders : Result (list FolderConfig) :=
  match value (makeRequest env srv UFolders apiKey "rest/config/folders") with
  | inl err => inl err
  | inr resp =>
      match decodeFolderConfigs env (rs_Body resp) with
      | inl err => inl ("invalid response body: " +:+ err)
      | inr folderConfig => inr folderConfig
      end
  end.

(** What [wrapHandler] adds to the handler's own events. *)
Definition failureReport (err : option error) : list Event :=
  match err with
  | Some e => [Stderr ("Failed: " +:+ e)]
  | None => []
  end.

(** The record a folder goroutine prints, if its fetch succeeds. *)
Definition folderRecord (i : nat) (folder : FolderConfig) : option Line :=
  match fetchFolderStats i folder with
  | inr stats => Some (folderLine folder stats)
  | inl _ => None
  end.

(** The records of all folders whose fetch succeeds. *)
Definition folderRecords (folderConfig : list FolderConfig) : list Line :=
  omap id (imap folderRecord folderConfig).

End Outcomes.

(* ===================================================================== *)
(** ** A scripted daemon, to run the program on *)
(* ===================================================================== *)

Module Mock.

(** The first check of Go's [url.Parse]: a URL with an ASCII control
    byte (below 0x20, or 0x7f) is rejected. *)
Definition isCTL (c : ascii) : bool :=
  (nat_of_ascii c <? 32)%nat || (nat_of_ascii c =? 127)%nat.

Fixpoint hasCTLByte (s : string) : bool :=
  match s with
  | EmptyString => false
  | String c rest => isCTL c || hasCTLByte rest
  end.

Definition parse_error (url : string) : option error :=
  if hasCTLByte url
  then Some "net/url: invalid control character in URL"
  else None.

Definition folders : list FolderConfig :=
  [mkFolderConfig "a" "My Pics" 3600 "sendreceive";
   mkFolderConfig "b c" "Docs" 60 "sendonly";
   mkFolderConfig "d" "Music" 60 "sendreceive"].

Definition statsA : FolderStats :=
  mkFolderStats 0 100 1 2 3 0 6 100 3 100 1 2 3 0 6 0 0 0 0 0 0 0.

Definition statsB : FolderStats :=
  mkFolderStats 1 500 0 1 9 0 10 400 8 400 0 1 8 0 9 100 0 0 1 0 1 2.

Definition atSeconds (s ns : Z) : GoTime.Time := GoTime.mkTime s ns.

(** 1970-01-01T00:00:00Z, 2023-11-14T22:13:20Z, 2300-01-01T00:00:00Z. *)
Definition tEpoch : GoTime.Time := atSeconds 0 0.
Definition t2023 : GoTime.Time := atSeconds 1700000000 0.
Definition t2300 : GoTime.Time := atSeconds 10413792000 0.

Definition peerUp : ConnectionStatItem :=
  mkConnectionStatItem "10.0.0.2:22000" t2023 "v1.27.0" true
    "TLS1.3" 4096 2048 false "tcp-client".

Definition peerNever : ConnectionStatItem :=
  mkConnectionStatItem "" tEpoch "" false "" 0 0 false "".

Definition connections : Connections :=
  mkConnections
    (mkConnectionStatItem "" tEpoch "" false "" 4096 2048 false "")
    (list_to_map [("PEER1", peerUp); ("PEER2", peerNever)]).

Definition deviceConfigs : list DeviceConfig :=
  [mkDeviceConfig "PEER1" "Alice Laptop"; mkDeviceConfig "PEER2" "nas"].

Definition one_and_a_half : float :=
  PrimFloat.div (GoTime.float64_of_int 3) (GoTime.float64_of_int 2).

Definition devices : Devices :=
  list_to_map
    [("PEER1", mkDeviceStatItem (atSeconds 1700000000 500000000)
                                one_and_a_half);
     ("PEER2", mkDeviceStatItem tEpoch (GoTime.float64_of_int 0));
     ("PEER3", mkDeviceStatItem t2023 (GoTime.float64_of_int 7));
     ("PEER4", mkDeviceStatItem t2300 (GoTime.float64_of_int 0))].

Definition report : Report :=
  mkReport 3 2 18 1 1 one_and_a_half one_and_a_half 86400 64.

Definition base : string := "http://localhost:8384".

(** The daemon.  With [authorized = false] every reply is a 403 whose
    body is not JSON; with [reportUp = false] the report endpoint does
    not answer.  The status of folder [d] never answers. *)
Definition daemon (authorized reportUp : bool) (u : UnitId)
    (req : Request) : Result Response :=
  if negb authorized then inr (mkResponse 403 "Forbidden")
  else
    let url := rq_URL req in
    if String.eqb url (base +:+ "/rest/config/folders")
    then inr (mkResponse 200 "folders")
    else if String.eqb url (base +:+ "/rest/db/status?folder=a")
    then inr (mkResponse 200 "statsA")
    else if String.eqb url (base +:+ "/rest/db/status?folder=b c")
    then inr (mkResponse 200 "statsB")
    else if String.eqb url (base +:+ "/rest/system/connections")
    then inr (mkResponse 200 "connections")
    else if String.eqb url (base +:+ "/rest/config/devices")
    then inr (mkResponse 200 "deviceConfigs")
    else if String.eqb url (base +:+ "/rest/stats/device")
    then inr (mkResponse 200 "devices")
    else if String.eqb url (base +:+ "/rest/svc/report") && reportUp
    then inr (mkResponse 200 "report")
    else inl "context deadline exceeded".

(** The decoders, scripted on the bodies above. *)
Definition decodeAs {A} (expected : string) (v : A) (body : string)
  : Result A :=
  if String.eqb body expected then inr v
  else inl "invalid character 'F' looking for beginning of value".

Definition decodeStats (body : string) : Result FolderStats :=
  if String.eqb body "statsA" then inr statsA
  else decodeAs "statsB" statsB body.

Definition env (authorized reportUp : bool) : Env :=
  {| url_Parse_error := parse_error;
     client_Do := daemon authorized reportUp;
     decodeFolderConfigs := decodeAs "folders" folders;
     decodeFolderStats := decodeStats;
     decodeConnections := decodeAs "connections" connections;
     decodeDeviceConfigs := decodeAs "deviceConfigs" deviceConfigs;
     decodeDevices := decodeAs "devices" devices;
     decodeReport := decodeAs "report" report;
     rangeConnections := map_to_list;
     rangeConnections_perm := fun m => reflexivity (map_to_list m);
     rangeDevices := map_to_list;
     rangeDevices_perm := fun m => reflexivity (map_to_list m) |}.

Definition flags (useFullReport : bool) : Flags :=
  mkFlags base "secret" useFullReport.

End Mock.

(* ===================================================================== *)
(** ** Definitions used to state further properties *)
(* ===================================================================== *)

(** Reading an escaped tag value back: a backslash followed by a space
    stands for the space.  (Not in the source; the inverse of the
    escaping, used to show that the escaping loses nothing.) *)
Fixpoint unescapeSpaces (s : string) : string :=
  match s with
  | EmptyString => EmptyString
  | String c rest =>
      match rest with
      | EmptyString => String c EmptyString
      | String d rest' =>
          if Ascii.eqb c GoStrings.backslash && Ascii.eqb d GoStrings.space
          then String GoStrings.space (unescapeSpaces rest')
          else String c (unescapeSpaces rest)
      end
  end.

(** The calls of [client.Do] in a trace, each with the client's timeout. *)
Definition calls (tr : list Event) : list (GoTime.Duration * Request) :=
  omap (fun e => match e with HttpDo t r => Some (t, r) | _ => None end) tr.

(** [fmt.Sprintf("rest/db/status?folder=%s", folderConfig.ID)]. *)
Definition statusPath (folderConfig : FolderConfig) : string :=
  "rest/db/status?folder=" +:+ fc_ID folderConfig.

(** The paths a run with flags [f] can ask for: the four fixed ones, the
    report if the flag is set, and the status of every folder of the
    decoded folder list. *)
Definition endpoints (env : Env) (f : Flags) : list string :=
  ["rest/config/folders"; "rest/system/connections";
   "rest/config/devices"; "rest/stats/device"]
  ++ (if useFullReportFlag f then ["rest/svc/report"] else [])
  ++ match fetchFolders env (server f) (apiKeyFlag f) with
     | inr folderConfig => map statusPath folderConfig
     | inl _ => []
     end.

(** A call made the way [makeRequest] makes it, for one of the paths. *)
Definition apiCall (srv apiKey : string) (paths : list string)
    (c : GoTime.Duration * Request) : Prop :=
  c.1 = 2000000000 /\
  exists path, path ∈ paths /\ c.2 = apiRequest srv apiKey path.

(** Every call of the trace is such a call. *)
Definition callsWithin (srv apiKey : string) (paths : list string)
    (tr : list Event) : Prop :=
  Forall (apiCall srv apiKey paths) (calls tr).

(** The number of folders of the decoded folder list (none if the list
    could not be fetched). *)
Definition folderCount (env : Env) (f : Flags) : nat :=
  match fetchFolders env (server f) (apiKeyFlag f) with
  | inr folderConfig => length folderConfig
  | inl _ => 0%nat
  end.

(** What [wrapHandler] writes to standard error for a handler's result. *)
Definition failureTexts (err : option error) : list string :=
  match err with
  | Some e => ["Failed: " +:+ e]
  | None => []
  end.

(** What a folder goroutine writes to standard error, if its fetch
    fails. *)
Definition folderFailure (env : Env) (srv apiKey : string)
    (i : nat) (folder : FolderConfig) : option string :=
  match fetchFolderStats env srv apiKey i folder with
  | inl msg => Some msg
  | inr _ => None
  end.

Definition folderFailures (env : Env) (srv apiKey : string)
    (folderConfig : list FolderConfig) : list string :=
  omap id (imap (folderFailure env srv apiKey) folderConfig).

(** Every failure of a run, as written to standard error: one message
    per failing handler and one per failing folder fetch. *)
Definition expectedStderr (env : Env) (f : Flags) : list string :=
  failureTexts (value (handleFolders env (server f) (apiKeyFlag f)).1)
  ++ match fetchFolders env (server f) (apiKeyFlag f) with
     | inr folderConfig =>
         folderFailures env (server f) (apiKeyFlag f) folderConfig
     | inl _ => []
     end
  ++ failureTexts
       (value (handleSystemConnections env (server f) (apiKeyFlag f)))
  ++ failureTexts (value (handleDevices env (server f) (apiKeyFlag f)))
  ++ (if useFullReportFlag f
      then failureTexts (value (handleReport env (server f) (apiKeyFlag f)))
      else []).







(** The record lines of a trace whose measurement is one of [ms], in the
    order of the trace. *)
Definition linesIn (ms : list string) (tr : list Event) : list Line :=
  omap (fun e => match e with
                 | Stdout l =>
                     if bool_decide (measurement l ∈ ms) then Some l else None
                 | _ => None
                 end) tr.

(** Closes [m ∉ [m1; ...; mn]] for distinct literal names. *)
Ltac other_measurement :=
  let Hin := fresh "Hin" in
  intros Hin;
  repeat (apply elem_of_cons in Hin as [Hin|Hin]; [discriminate|]);
  by apply elem_of_nil in Hin.

(** Closes [forall m, m ∈ ms' -> m ∉ ms] for disjoint literal lists. *)
Ltac disjoint_measurements :=
  let m := fresh "m" in
  let Hm := fresh "Hm" in
  intros m Hm;
  repeat (apply elem_of_cons in Hm as [->|Hm]; [other_measurement|]);
  by apply elem_of_nil in Hm.

(* ===================================================================== *)
(** ** General facts: the monad, interleavings, runs *)
(* ===================================================================== *)

Lemma events_bind {A B} (c : IO A) (k : A -> IO B) :
  events (c ≫= k) = events c ++ events (k (value c)).
Proof. reflexivity. Qed.

Lemma value_bind {A B} (c : IO A) (k : A -> IO B) :
  value (c ≫= k) = value (k (value c)).
Proof. reflexivity. Qed.

Lemma events_forEach {A} (l : list A) (body : A -> IO unit) :
  events (forEach l body) = concat (map (fun a => events (body a)) l).
Proof.
  induction l as [|a l IH]; [reflexivity|].
  cbn [forEach map concat]. rewrite events_bind. by rewrite IH.
Qed.

Lemma stdoutLines_app (a b : list Event) :
  stdoutLines (a ++ b) = stdoutLines a ++ stdoutLines b.
Proof. apply omap_app. Qed.

Lemma stderrWrites_app (a b : list Event) :
  stderrWrites (a ++ b) = stderrWrites a ++ stderrWrites b.
Proof. apply omap_app. Qed.

Lemma requests_app (a b : list Event) :
  requests (a ++ b) = requests a ++ requests b.
Proof. apply omap_app. Qed.

Lemma stdoutLines_concat (us : list (list Event)) :
  stdoutLines (concat us) = concat (map stdoutLines us).
Proof.
  induction us as [|u us IH]; [reflexivity|].
  cbn [concat map]. by rewrite stdoutLines_app, IH.
Qed.

Lemma linesOf_app (m : string) (a b : list Event) :
  linesOf m (a ++ b) = linesOf m a ++ linesOf m b.
Proof. unfold linesOf. by rewrite stdoutLines_app, filter_app. Qed.

Lemma linesOf_concat (m : string) (us : list (list Event)) :
  linesOf m (concat us) = concat (map (linesOf m) us).
Proof.
  induction us as [|u us IH]; [reflexivity|].
  cbn [concat map]. by rewrite linesOf_app, IH.
Qed.

#[export] Instance stdoutLines_perm : Proper ((≡ₚ) ==> (≡ₚ)) stdoutLines.
Proof. intros a b H. unfold stdoutLines. by rewrite H. Qed.

#[export] Instance stderrWrites_perm : Proper ((≡ₚ) ==> (≡ₚ)) stderrWrites.
Proof. intros a b H. unfold stderrWrites. by rewrite H. Qed.

#[export] Instance requests_perm : Proper ((≡ₚ) ==> (≡ₚ)) requests.
Proof. intros a b H. unfold requests. by rewrite H. Qed.

#[export] Instance linesOf_perm m : Proper ((≡ₚ) ==> (≡ₚ)) (linesOf m).
Proof. intros a b H. unfold linesOf. by rewrite H. Qed.

Section InterleaveFacts.

Context {A : Type}.
Implicit Types (us : list (list A)) (tr : list A).

Lemma concat_all_nil us : Forall (fun u => u = []) us -> concat us = [].
Proof. induction 1 as [|u us -> _ IH]; [reflexivity | exact IH]. Qed.

(** An interleaving rearranges the events of its goroutines. *)
Lemma Interleave_perm us tr : Interleave us tr -> tr ≡ₚ concat us.
Proof.
  induction 1 as [us Hnil | us1 a u us2 tr _ IH].
  - by rewrite concat_all_nil.
  - rewrite concat_app in IH |- *. cbn [concat] in IH |- *.
    rewrite IH. cbn [app]. apply Permutation_middle.
Qed.

Lemma Interleave_seq_from us0 us :
  Forall (fun u => u = []) us0 -> Interleave (us0 ++ us) (concat us).
Proof.
  revert us0. induction us as [|u us IH]; intros us0 H0.
  - rewrite app_nil_r. by constructor.
  - induction u as [|a u IHu].
    + change (us0 ++ [] :: us) with (us0 ++ [[]] ++ us).
      rewrite (assoc_L (++) us0 [[]] us). cbn [concat app].
      apply IH. apply Forall_app; split; [done | by repeat constructor].
    + change (concat ((a :: u) :: us)) with (a :: concat (u :: us)).
      by constructor.
Qed.

(** Running the goroutines one after the other is an interleaving. *)
Lemma Interleave_seq us : Interleave us (concat us).
Proof. apply (Interleave_seq_from []). constructor. Qed.

End InterleaveFacts.

Lemma ThreadRuns_perm t tr : ThreadRuns t tr -> tr ≡ₚ runThread t.
Proof.
  intros (x & Hx & ->). unfold runThread.
  by rewrite (Interleave_perm _ _ Hx).
Qed.

Lemma ThreadRuns_seq t : ThreadRuns t (runThread t).
Proof. exists (concat (children t)). split; [apply Interleave_seq | done]. Qed.

Lemma Forall2_ThreadRuns_perm ts trs :
  Forall2 ThreadRuns ts trs -> concat trs ≡ₚ concat (map runThread ts).
Proof.
  induction 1 as [|t tr ts trs Ht _ IH]; [done|].
  cbn [concat map]. by rewrite IH, (ThreadRuns_perm _ _ Ht).
Qed.

(** Every run with a non-empty key exits with 0 and rearranges the events
    of the goroutines of [main]. *)
Lemma Runs_perm env f tr code :
  apiKeyFlag f <> "" ->
  Runs env f tr code ->
  code = 0 /\ tr ≡ₚ concat (map runThread (mainThreads env f)).
Proof.
  intros Hkey. unfold Runs.
  destruct (String.eqb_spec (apiKeyFlag f) "") as [|_]; [done|].
  intros (trs & Hts & Hil & ->). split; [done|].
  rewrite (Interleave_perm _ _ Hil). by apply Forall2_ThreadRuns_perm.
Qed.

(** The computed schedule is a run. *)
Lemma main_Runs env f : Runs env f (main env f).1 (main env f).2.
Proof.
  unfold Runs, main.
  destruct (String.eqb (apiKeyFlag f) ""); [done|].
  exists (map runThread (mainThreads env f)). cbn [fst snd].
  split_and!; [| apply Interleave_seq | done].
  induction (mainThreads env f) as [|t ts IH]; constructor;
    [apply ThreadRuns_seq | exact IH].
Qed.

(* ===================================================================== *)
(** ** The API client: [makeRequest] *)
(* ===================================================================== *)

Lemma makeRequest_unparsable env srv u apiKey path cause :
  url_Parse_error env (srv +:+ "/" +:+ path) = Some cause ->
  makeRequest env srv u apiKey path
  = ([], inl ("unable to create HTTP request: " +:+ cause)).
Proof. intros H. unfold makeRequest, http_NewRequest. by rewrite H. Qed.

Lemma makeRequest_parsable env srv u apiKey path :
  url_Parse_error env (srv +:+ "/" +:+ path) = None ->
  makeRequest env srv u apiKey path
  = ([HttpDo (2 * GoTime.Second) (apiRequest srv apiKey path)],
     match client_Do env u (apiRequest srv apiKey path) with
     | inl cause => inl ("HTTP request failed: " +:+ cause)
     | inr resp => inr resp
     end).
Proof.
  intros H. unfold makeRequest, http_NewRequest. rewrite H.
  change (Header_Add _ _ _) with (apiRequest srv apiKey path).
  by destruct (client_Do env u (apiRequest srv apiKey path)).
Qed.

(** Whatever happens, [makeRequest] writes nothing and sends at most one
    request. *)
Lemma makeRequest_events env srv u apiKey path :
  events (makeRequest env srv u apiKey path) = [] \/
  events (makeRequest env srv u apiKey path)
  = [HttpDo (2 * GoTime.Second) (apiRequest srv apiKey path)].
Proof.
  destruct (url_Parse_error env (srv +:+ "/" +:+ path)) as [cause|] eqn:H.
  - left. by rewrite (makeRequest_unparsable _ _ _ _ _ _ H).
  - right. by rewrite (makeRequest_parsable _ _ _ _ _ H).
Qed.

Lemma makeRequest_stdout env srv u apiKey path :
  stdoutLines (events (makeRequest env srv u apiKey path)) = [].
Proof. by destruct (makeRequest_events env srv u apiKey path) as [-> | ->]. Qed.

Lemma makeRequest_stderr env srv u apiKey path :
  stderrWrites (events (makeRequest env srv u apiKey path)) = [].
Proof. by destruct (makeRequest_events env srv u apiKey path) as [-> | ->]. Qed.

(** C6, as the code has it: [makeRequest] first builds the request; when
    the URL [base/path] does not parse it sends nothing and returns the
    error [unable to create HTTP request: cause]; otherwise it calls
    [client.Do] exactly once, on a client with a timeout of 2 seconds, with
    a GET request for [base/path] whose only header is [X-API-Key: key],
    and returns either the response or the error
    [HTTP request failed: cause].  It never sends a second request. *)
Theorem C6_makeRequest_single_attempt env srv u apiKey path :
  match url_Parse_error env (srv +:+ "/" +:+ path) with
  | Some cause =>
      events (makeRequest env srv u apiKey path) = [] /\
      value (makeRequest env srv u apiKey path)
      = inl ("unable to create HTTP request: " +:+ cause)
  | None =>
      events (makeRequest env srv u apiKey path)
      = [HttpDo 2000000000
           (mkRequest "GET" (srv +:+ "/" +:+ path) [("X-API-Key", apiKey)])] /\
      value (makeRequest env srv u apiKey path)
      = match client_Do env u
                (mkRequest "GET" (srv +:+ "/" +:+ path)
                           [("X-API-Key", apiKey)]) with
        | inl cause => inl ("HTTP request failed: " +:+ cause)
        | inr resp => inr resp
        end
  end.
Proof.
  destruct (url_Parse_error env (srv +:+ "/" +:+ path)) as [cause|] eqn:H.
  - by rewrite (makeRequest_unparsable _ _ _ _ _ _ H).
  - by rewrite (makeRequest_parsable _ _ _ _ _ H).
Qed.

(** C6 as stated fails: for the status path of a folder whose id holds a
    line feed, the URL does not parse, so no GET request is performed at
    all (not exactly one); the construction error is returned. *)
Lemma C6_no_request_when_url_unparsable :
  let path := "rest/db/status?folder=x" +:+ String (ascii_of_nat 10) "y" in
  let c := makeRequest (Mock.env true true) Mock.base (UFolderStats 0)
                       "secret" path in
  length (requests (events c)) <> 1%nat /\
  events c = [] /\
  value c = inl ("unable to create HTTP request: "
                 +:+ "net/url: invalid control character in URL").
Proof. vm_compute. split; [discriminate | split; reflexivity]. Qed.



(* ===================================================================== *)
(** ** Loops over a decoded map *)
(* ===================================================================== *)

Section RangeLoop.

Context {V : Type}.
Variable keep : V -> bool.
Variable line : string -> V -> Line.

Lemma stdoutLines_loop (l : list (string * V)) :
  stdoutLines (events (forEach l (loopBody keep line)))
  = omap (keptLine keep line) l.
Proof.
  induction l as [|kv l IH]; [reflexivity|].
  cbn [forEach]. rewrite events_bind, stdoutLines_app, IH.
  change (omap (keptLine keep line) (kv :: l))
    with (match (keptLine keep line) kv with
          | Some y => y :: omap (keptLine keep line) l
          | None => omap (keptLine keep line) l
          end).
  unfold loopBody, keptLine at 2. by destruct (keep kv.2).
Qed.

Lemma stderrWrites_loop (l : list (string * V)) :
  stderrWrites (events (forEach l (loopBody keep line))) = [].
Proof.
  induction l as [|kv l IH]; [reflexivity|].
  cbn [forEach]. rewrite events_bind, stderrWrites_app, IH.
  unfold loopBody. by destruct (keep kv.2).
Qed.

Lemma requests_loop (l : list (string * V)) :
  requests (events (forEach l (loopBody keep line))) = [].
Proof.
  induction l as [|kv l IH]; [reflexivity|].
  cbn [forEach]. rewrite events_bind, requests_app, IH.
  unfold loopBody. by destruct (keep kv.2).
Qed.

Variable m : gmap string V.
Variable order : list (string * V).
Hypothesis order_perm : order ≡ₚ map_to_list m.

(** A line is printed by the loop exactly when it is the line of an
    entry of the map that passes the test. *)
Lemma elem_of_kept (x : Line) :
  x ∈ omap (keptLine keep line) order <->
  exists k v, m !! k = Some v /\ keep v = true /\ x = line k v.
Proof.
  rewrite order_perm, list_elem_of_omap. split.
  - intros ([k v] & Hin & Hk). apply elem_of_map_to_list in Hin.
    unfold keptLine in Hk. cbn [fst snd] in Hk.
    destruct (keep v) eqn:Hv; [|done]. exists k, v. naive_solver.
  - intros (k & v & Hm & Hv & ->). exists (k, v). split.
    + by apply elem_of_map_to_list.
    + unfold keptLine. cbn [fst snd]. by rewrite Hv.
Qed.

(** The loop prints at most one line per entry. *)
Lemma length_kept : (length (omap (keptLine keep line) order) <= size m)%nat.
Proof.
  rewrite order_perm, <- length_map_to_list.
  generalize (map_to_list m). intros l.
  induction l as [|kv l IH]; [cbn; lia|].
  change (omap (keptLine keep line) (kv :: l))
    with (match (keptLine keep line) kv with
          | Some y => y :: omap (keptLine keep line) l
          | None => omap (keptLine keep line) l
          end).
  destruct ((keptLine keep line) kv); cbn [length]; lia.
Qed.


End RangeLoop.

(* ===================================================================== *)
(** ** Instants and durations *)
(* ===================================================================== *)

Module GoTimeFacts.
Import GoTime.


(** [Before] is the strict order of instants. *)
Lemma Before_spec t u :
  Before t u = true <->
  sec t < sec u \/ (sec t = sec u /\ nsec t < nsec u).
Proof. unfold Before. lia. Qed.

Lemma Before_irrefl t : Before t t = false.
Proof. unfold Before. lia. Qed.

(** Strictly after the epoch: a positive distance from it. *)
Lemma Before_epoch t :
  wf t -> (Before unixEpoch t = true <-> 0 < nanosBetween t unixEpoch).
Proof.
  unfold wf, nanosBetween. rewrite Before_spec. cbn [unixEpoch sec nsec].
  lia.
Qed.

(** At or before the epoch: not [Before]. *)
Lemma not_Before_epoch t :
  wf t -> (Before unixEpoch t = false <-> nanosBetween t unixEpoch <= 0).
Proof.
  intros Hwf. pose proof (Before_epoch t Hwf) as H.
  destruct (Before unixEpoch t); split; intros; try done; lia.
Qed.


(** Beyond that (some 292 years) [Sub] gives the largest duration. *)
Lemma Sub_epoch_saturates t :
  wf t ->
  maxDuration < nanosBetween t unixEpoch ->
  sec t < 2 ^ 63 ->
  Sub t unixEpoch <> nanosBetween t unixEpoch.
Proof.
  unfold wf, nanosBetween, maxDuration. cbn [unixEpoch sec nsec].
  intros Hwf Hd Hs. unfold Sub.
  destruct (Equal _ t).
  - intros E. unfold nanosBetween in E.
    match type of E with wrap64 ?x = _ =>
      assert (- 2 ^ 63 <= wrap64 x <= 2 ^ 63 - 1) as Hb
    end.
    { unfold wrap64.
      match goal with |- _ <= ?a mod ?b - _ <= _ =>
        pose proof (Z.mod_pos_bound a b ltac:(lia)) end. lia. }
    lia.
  - destruct (Before t unixEpoch) eqn:Hb.
    + apply Before_spec in Hb. cbn [unixEpoch sec nsec] in Hb. lia.
    + unfold maxDuration. lia.
Qed.

End GoTimeFacts.

(* ===================================================================== *)
(** ** The connections handler *)
(* ===================================================================== *)

Section ConnectionsHandler.

Variables (env : Env) (srv apiKey : string).
Variables (resp : Response) (stats : Connections).

(** The request is answered and the body decodes to [stats]. *)
Hypothesis fetched :
  value (makeRequest env srv UConnections apiKey "rest/system/connections")
  = inr resp.
Hypothesis decoded : decodeConnections env (rs_Body resp) = inr stats.

Lemma handleSystemConnections_stdout :
  stdoutLines (events (handleSystemConnections env srv apiKey))
  = connectionTotalsLine stats
    :: omap (keptLine updated connectionLine)
            (rangeConnections env (cn_Connections stats)).
Proof.
  unfold handleSystemConnections.
  rewrite events_bind, stdoutLines_app, makeRequest_stdout, fetched, decoded.
  rewrite events_bind, stdoutLines_app, events_bind, stdoutLines_app.
  cbn [app]. rewrite app_nil_r.
  change (stdoutLines (events (emit (Stdout (connectionTotalsLine stats)))))
    with [connectionTotalsLine stats].
  cbn [app]. f_equal.
  apply (stdoutLines_loop updated connectionLine).
Qed.

Lemma handleSystemConnections_value :
  value (handleSystemConnections env srv apiKey) = None.
Proof.
  unfold handleSystemConnections.
  by rewrite value_bind, fetched, decoded.
Qed.

Lemma measurement_kept_connection l :
  l ∈ omap (keptLine updated connectionLine)
           (rangeConnections env (cn_Connections stats)) ->
  measurement l = "syncthing_connection".
Proof.
  intros H.
  apply (elem_of_kept _ _ _ _ (rangeConnections_perm env _)) in H.
  by destruct H as (k & v & _ & _ & ->).
Qed.

(** The per-peer records of the handler. *)
Lemma handleSystemConnections_peer_lines :
  linesOf "syncthing_connection"
          (events (handleSystemConnections env srv apiKey))
  = omap (keptLine updated connectionLine)
         (rangeConnections env (cn_Connections stats)).
Proof.
  unfold linesOf. rewrite handleSystemConnections_stdout.
  rewrite filter_cons_False by (cbn; discriminate).
  pose proof measurement_kept_connection as H. revert H.
  generalize (omap (keptLine updated connectionLine)
                   (rangeConnections env (cn_Connections stats))).
  intros l Hl. induction l as [|x l IH]; [done|].
  rewrite filter_cons_True by (apply Hl; by left).
  f_equal. apply IH. intros y Hy. apply Hl. by right.
Qed.

Lemma handleSystemConnections_totals_lines :
  linesOf "syncthing_connection_totals"
          (events (handleSystemConnections env srv apiKey))
  = [connectionTotalsLine stats].
Proof.
  unfold linesOf. rewrite handleSystemConnections_stdout.
  rewrite filter_cons_True by done. f_equal.
  pose proof measurement_kept_connection as H. revert H.
  generalize (omap (keptLine updated connectionLine)
                   (rangeConnections env (cn_Connections stats))).
  intros l Hl. induction l as [|x l IH]; [done|].
  rewrite filter_cons_False.
  - apply IH. intros y Hy. apply Hl. by right.
  - rewrite (Hl x) by (by left). discriminate.
Qed.

End ConnectionsHandler.

(** C2: when the connections body has been fetched and decoded, a
    [syncthing_connection] record tagged with a peer of the decoded map is
    printed if and only if the peer's [at] is strictly after
    1970-01-01T00:00:00Z ([cutOffTime.Before(at)]); a peer whose [at] is at
    or before that instant gets no record; and the record printed for a
    peer is the one built from its entry. *)
Theorem C2_connection_record_iff_after_epoch
    env srv apiKey resp stats k connectionStat :
  value (makeRequest env srv UConnections apiKey "rest/system/connections")
  = inr resp ->
  decodeConnections env (rs_Body resp) = inr stats ->
  cn_Connections stats !! k = Some connectionStat ->
  let out := linesOf "syncthing_connection"
               (events (handleSystemConnections env srv apiKey)) in
  ((exists l, l ∈ out /\ tag_value "client_id" l = Some k)
   <-> GoTime.Before GoTime.unixEpoch (cs_At connectionStat) = true) /\
  (GoTime.Before GoTime.unixEpoch (cs_At connectionStat) = false ->
   forall l, l ∈ out -> tag_value "client_id" l <> Some k) /\
  (forall l, l ∈ out -> tag_value "client_id" l = Some k ->
             l = connectionLine k connectionStat).
Proof.
  intros Hf Hd Hk out.
  assert (Hout : forall l, l ∈ out <->
            exists k' v, cn_Connections stats !! k' = Some v /\
                         updated v = true /\ l = connectionLine k' v).
  { intros l. unfold out.
    rewrite (handleSystemConnections_peer_lines _ _ _ _ _ Hf Hd).
    apply elem_of_kept, rangeConnections_perm. }
  assert (Hsame : forall l, l ∈ out -> tag_value "client_id" l = Some k ->
            l = connectionLine k connectionStat /\
            updated connectionStat = true).
  { intros l Hl Ht. apply Hout in Hl as (k' & v & Hk' & Hv & ->).
    unfold tag_value in Ht. cbn in Ht. injection Ht as ->.
    rewrite Hk in Hk'. by injection Hk' as ->. }
  split_and!.
  - split.
    + intros (l & Hl & Ht). by apply (Hsame l).
    + intros Hb. exists (connectionLine k connectionStat). split.
      * apply Hout. by exists k, connectionStat.
      * reflexivity.
  - intros Hb l Hl Ht. destruct (Hsame l Hl Ht) as [_ Hu].
    unfold updated, cutOffTime in Hu. congruence.
  - intros l Hl Ht. by apply (Hsame l).
Qed.

(** The scripted daemon: PEER1 was seen in 2023 and gets its record. *)
Lemma C2_connection_record_iff_after_epoch_witness :
  let out := linesOf "syncthing_connection"
               (events (handleSystemConnections (Mock.env true true)
                          Mock.base "secret")) in
  ((exists l, l ∈ out /\ tag_value "client_id" l = Some "PEER1")
   <-> GoTime.Before GoTime.unixEpoch (cs_At Mock.peerUp) = true) /\
  (GoTime.Before GoTime.unixEpoch (cs_At Mock.peerUp) = false ->
   forall l, l ∈ out -> tag_value "client_id" l <> Some "PEER1") /\
  (forall l, l ∈ out -> tag_value "client_id" l = Some "PEER1" ->
             l = connectionLine "PEER1" Mock.peerUp).
Proof.
  apply (C2_connection_record_iff_after_epoch (Mock.env true true) Mock.base
           "secret" (mkResponse 200 "connections") Mock.connections
           "PEER1" Mock.peerUp);
    vm_compute; reflexivity.
Defined.

(* ===================================================================== *)
(** ** The devices handler *)
(* ===================================================================== *)

(** The name map binds exactly the ids of the configuration. *)
Lemma buildDeviceNames_None (deviceConfigs : list DeviceConfig) (k : string) :
  buildDeviceNames deviceConfigs !! k = None <->
  Forall (fun device => dc_DeviceID device <> k) deviceConfigs.
Proof.
  unfold buildDeviceNames.
  assert (G : forall (acc : gmap string string),
    foldl (fun names device => <[dc_DeviceID device := dc_Name device]> names)
          acc deviceConfigs !! k = None <->
    acc !! k = None /\
    Forall (fun device => dc_DeviceID device <> k) deviceConfigs).
  { induction deviceConfigs as [|d ds IH]; intros acc; cbn [foldl].
    - rewrite Forall_nil. tauto.
    - rewrite IH, Forall_cons, lookup_insert_None. tauto. }
  rewrite G, lookup_empty. tauto.
Qed.

Section DevicesHandler.

Variables (env : Env) (srv apiKey : string).
Variables (resp1 resp2 : Response).
Variables (deviceConfigs : list DeviceConfig) (stats : Devices).

(** Both requests are answered and both bodies decode. *)
Hypothesis fetchedConfig :
  value (makeRequest env srv UDevices apiKey "rest/config/devices")
  = inr resp1.
Hypothesis decodedConfig :
  decodeDeviceConfigs env (rs_Body resp1) = inr deviceConfigs.
Hypothesis fetchedStats :
  value (makeRequest env srv UDevices apiKey "rest/stats/device")
  = inr resp2.
Hypothesis decodedStats : decodeDevices env (rs_Body resp2) = inr stats.

Lemma handleDevices_stdout :
  stdoutLines (events (handleDevices env srv apiKey))
  = deviceTotalsLine stats
    :: omap (keptLine seen (deviceLine (buildDeviceNames deviceConfigs)))
            (rangeDevices env stats).
Proof.
  unfold handleDevices.
  rewrite events_bind, stdoutLines_app, makeRequest_stdout.
  rewrite fetchedConfig, decodedConfig.
  rewrite events_bind, stdoutLines_app, makeRequest_stdout.
  rewrite fetchedStats, decodedStats.
  rewrite events_bind, stdoutLines_app, events_bind, stdoutLines_app.
  cbn [app]. rewrite app_nil_r.
  change (stdoutLines (events (emit (Stdout (deviceTotalsLine stats)))))
    with [deviceTotalsLine stats].
  cbn [app]. f_equal.
  apply (stdoutLines_loop seen
           (deviceLine (buildDeviceNames deviceConfigs))).
Qed.

Lemma handleDevices_value : value (handleDevices env srv apiKey) = None.
Proof.
  unfold handleDevices.
  rewrite value_bind, fetchedConfig, decodedConfig.
  by rewrite value_bind, fetchedStats, decodedStats.
Qed.

Lemma measurement_kept_device l :
  l ∈ omap (keptLine seen (deviceLine (buildDeviceNames deviceConfigs)))
           (rangeDevices env stats) ->
  measurement l = "syncthing_device".
Proof.
  intros H.
  apply (elem_of_kept _ _ _ _ (rangeDevices_perm env _)) in H.
  by destruct H as (k & v & _ & _ & ->).
Qed.

(** The per-device records of the handler. *)
Lemma handleDevices_device_lines :
  linesOf "syncthing_device" (events (handleDevices env srv apiKey))
  = omap (keptLine seen (deviceLine (buildDeviceNames deviceConfigs)))
         (rangeDevices env stats).
Proof.
  unfold linesOf. rewrite handleDevices_stdout.
  rewrite filter_cons_False by (cbn; discriminate).
  pose proof measurement_kept_device as H. revert H.
  generalize (omap (keptLine seen
                      (deviceLine (buildDeviceNames deviceConfigs)))
                   (rangeDevices env stats)).
  intros l Hl. induction l as [|x l IH]; [done|].
  rewrite filter_cons_True by (apply Hl; by left).
  f_equal. apply IH. intros y Hy. apply Hl. by right.
Qed.

Lemma handleDevices_totals_lines :
  linesOf "syncthing_device_totals" (events (handleDevices env srv apiKey))
  = [deviceTotalsLine stats].
Proof.
  unfold linesOf. rewrite handleDevices_stdout.
  rewrite filter_cons_True by done. f_equal.
  pose proof measurement_kept_device as H. revert H.
  generalize (omap (keptLine seen
                      (deviceLine (buildDeviceNames deviceConfigs)))
                   (rangeDevices env stats)).
  intros l Hl. induction l as [|x l IH]; [done|].
  rewrite filter_cons_False.
  - apply IH. intros y Hy. apply Hl. by right.
  - rewrite (Hl x) by (by left). discriminate.
Qed.

(** What the handler prints about one device of the decoded map. *)
Lemma handleDevices_device k deviceStat :
  stats !! k = Some deviceStat ->
  let out := linesOf "syncthing_device"
               (events (handleDevices env srv apiKey)) in
  ((exists l, l ∈ out /\ tag_value "device_id" l = Some k)
   <-> seen deviceStat = true) /\
  (forall l, l ∈ out -> tag_value "device_id" l = Some k ->
     l = deviceLine (buildDeviceNames deviceConfigs) k deviceStat).
Proof.
  intros Hk out.
  assert (Hout : forall l, l ∈ out <->
            exists k' v, stats !! k' = Some v /\ seen v = true /\
              l = deviceLine (buildDeviceNames deviceConfigs) k' v).
  { intros l. unfold out. rewrite handleDevices_device_lines.
    apply elem_of_kept, rangeDevices_perm. }
  assert (Hsame : forall l, l ∈ out ->
            tag_value "device_id" l = Some k ->
            l = deviceLine (buildDeviceNames deviceConfigs) k deviceStat /\
            seen deviceStat = true).
  { intros l Hl Ht. apply Hout in Hl as (k' & v & Hk' & Hv & ->).
    unfold tag_value in Ht. cbn in Ht. injection Ht as ->.
    rewrite Hk in Hk'. by injection Hk' as ->. }
  split.
  - split.
    + intros (l & Hl & Ht). by apply (Hsame l).
    + intros Hb.
      exists (deviceLine (buildDeviceNames deviceConfigs) k deviceStat).
      split; [|reflexivity]. apply Hout. by exists k, deviceStat.
  - intros l Hl Ht. by apply (Hsame l).
Qed.

End DevicesHandler.




(** C8: a device of the stats map whose id is not bound in the name map
    built from the device configuration is treated like any other: the
    handler returns no error, the device's record is printed under the
    same condition on [lastSeen], and the record carries an empty
    [device_name] tag. *)
Theorem C8_unnamed_device_gets_empty_name
    env srv apiKey resp1 resp2 deviceConfigs stats k deviceStat :
  value (makeRequest env srv UDevices apiKey "rest/config/devices")
  = inr resp1 ->
  decodeDeviceConfigs env (rs_Body resp1) = inr deviceConfigs ->
  value (makeRequest env srv UDevices apiKey "rest/stats/device")
  = inr resp2 ->
  decodeDevices env (rs_Body resp2) = inr stats ->
  stats !! k = Some deviceStat ->
  buildDeviceNames deviceConfigs !! k = None ->
  let out := linesOf "syncthing_device"
               (events (handleDevices env srv apiKey)) in
  value (handleDevices env srv apiKey) = None /\
  ((exists l, l ∈ out /\ tag_value "device_id" l = Some k)
   <-> GoTime.Before GoTime.unixEpoch (ds_LastSeen deviceStat) = true) /\
  (forall l, l ∈ out -> tag_value "device_id" l = Some k ->
             tag_value "device_name" l = Some "").
Proof.
  intros H1 H2 H3 H4 Hk Hname out.
  destruct (handleDevices_device _ _ _ _ _ _ _ H1 H2 H3 H4 k deviceStat Hk)
    as [Hiff Hform].
  split_and!.
  - exact (handleDevices_value _ _ _ _ _ _ _ H1 H2 H3 H4).
  - exact Hiff.
  - intros l Hl Ht. rewrite (Hform l Hl Ht).
    unfold tag_value, deviceLine, nameOf. cbn [tags assoc].
    rewrite Hname. reflexivity.
Qed.

(** The scripted daemon: PEER3 is in the stats but not in the
    configuration. *)
Lemma C8_unnamed_device_gets_empty_name_witness :
  let out := linesOf "syncthing_device"
               (events (handleDevices (Mock.env true true) Mock.base
                          "secret")) in
  value (handleDevices (Mock.env true true) Mock.base "secret") = None /\
  ((exists l, l ∈ out /\ tag_value "device_id" l = Some "PEER3")
   <-> GoTime.Before GoTime.unixEpoch Mock.t2023 = true) /\
  (forall l, l ∈ out -> tag_value "device_id" l = Some "PEER3" ->
             tag_value "device_name" l = Some "").
Proof.
  apply (C8_unnamed_device_gets_empty_name (Mock.env true true) Mock.base
           "secret" (mkResponse 200 "deviceConfigs")
           (mkResponse 200 "devices") Mock.deviceConfigs Mock.devices
           "PEER3" (mkDeviceStatItem Mock.t2023 (GoTime.float64_of_int 7)));
    vm_compute; reflexivity.
Defined.




Example mock_counts :
  length (map_to_list (cn_Connections Mock.connections)) = 2%nat /\
  length (linesOf "syncthing_connection"
            (events (handleSystemConnections (Mock.env true true) Mock.base
                       "secret"))) = 1%nat /\
  length (map_to_list Mock.devices) = 4%nat /\
  length (linesOf "syncthing_device"
            (events (handleDevices (Mock.env true true) Mock.base
                       "secret"))) = 3%nat.
Proof. vm_compute. repeat split. Qed.

(* ===================================================================== *)
(** ** Tag values *)
(* ===================================================================== *)

Module EscapeFacts.
Import GoStrings.

Lemma escapeSpaces_nil : escapeSpaces "" = "".
Proof. reflexivity. Qed.

(** A space becomes a backslash and a space. *)
Lemma escapeSpaces_space v :
  escapeSpaces (String space v)
  = String backslash (String space (escapeSpaces v)).
Proof. reflexivity. Qed.

(** Any other byte stays. *)
Lemma escapeSpaces_other c v :
  c <> space -> escapeSpaces (String c v) = String c (escapeSpaces v).
Proof.
  intros Hc. unfold escapeSpaces. cbn [ReplaceAll].
  destruct (Ascii.eqb_spec c " "%char) as [->|_]; [by destruct Hc | done].
Qed.

(** Escaping works piece by piece. *)
Lemma escapeSpaces_app a b :
  escapeSpaces (a +:+ b) = escapeSpaces a +:+ escapeSpaces b.
Proof.
  induction a as [|c a IH]; [reflexivity|].
  change (String c a +:+ b) with (String c (a +:+ b)).
  destruct (Ascii.eqb_spec c space) as [->|Hc].
  - rewrite !escapeSpaces_space, IH. reflexivity.
  - rewrite !escapeSpaces_other, IH by done. reflexivity.
Qed.

(** So a space between two pieces comes out as backslash, space. *)
Lemma escapeSpaces_around a b :
  escapeSpaces (a +:+ " " +:+ b)
  = escapeSpaces a +:+ "\ " +:+ escapeSpaces b.
Proof. by rewrite !escapeSpaces_app. Qed.

(** A value without a space is unchanged. *)
Lemma escapeSpaces_no_space v : count space v = 0%nat -> escapeSpaces v = v.
Proof.
  induction v as [|c v IH]; [reflexivity|].
  cbn [count]. intros H.
  destruct (Ascii.eqb_spec c space) as [->|Hc]; [lia|].
  rewrite escapeSpaces_other by done. f_equal. apply IH. lia.
Qed.

Lemma escapeSpaces_escaped_from prev v :
  spacesEscapedFrom prev (escapeSpaces v) = true.
Proof.
  revert prev. induction v as [|c v IH]; intros prev; [reflexivity|].
  destruct (Ascii.eqb_spec c space) as [->|Hc].
  - rewrite escapeSpaces_space. cbn [spacesEscapedFrom].
    rewrite IH. reflexivity.
  - rewrite escapeSpaces_other by done. cbn [spacesEscapedFrom].
    rewrite IH. destruct (Ascii.eqb_spec c space); [done | reflexivity].
Qed.

(** Dropping the backslashes the escaping added gives the value back when
    it had none of its own; in general the bytes other than backslash are
    kept in order. *)
Lemma escapeSpaces_keeps_bytes v :
  without backslash (escapeSpaces v) = without backslash v.
Proof.
  induction v as [|c v IH]; [reflexivity|].
  destruct (Ascii.eqb_spec c space) as [->|Hc].
  - rewrite escapeSpaces_space. cbn [without]. cbn. by rewrite IH.
  - rewrite escapeSpaces_other by done. cbn [without].
    rewrite IH. reflexivity.
Qed.

End EscapeFacts.

(** C4, as the code has it: the folder label and the device name are
    written through [strings.Replace(v, " ", "\\ ", -1)], so in the line
    every space of the value stands as backslash, space; and a tag value
    without a space, of any of the five tags, is written unchanged. *)
Theorem C4_label_and_name_escaped
    (folderConfig : FolderConfig) (folderStats : FolderStats)
    (deviceNames : gmap string string) (k : string)
    (deviceStat : DeviceStatItem) (connectionStat : ConnectionStatItem) :
  let esc := GoStrings.escapeSpaces in
  let fl := folderLine folderConfig folderStats in
  let dl := deviceLine deviceNames k deviceStat in
  let cl := connectionLine k connectionStat in
  (* the two escaped tags, and the text of the lines *)
  tag_value "folder_label" fl = Some (esc (fc_Label folderConfig)) /\
  tag_value "device_name" dl = Some (esc (nameOf deviceNames k)) /\
  line_head fl = "syncthing_folder,folder_id=" +:+ fc_ID folderConfig
                 +:+ ",folder_label=" +:+ esc (fc_Label folderConfig) /\
  line_head dl = "syncthing_device,device_id=" +:+ k
                 +:+ ",device_name=" +:+ esc (nameOf deviceNames k) /\
  line_head cl = "syncthing_connection,client_id=" +:+ k /\
  (* what escaping does *)
  (forall a b, esc (a +:+ " " +:+ b) = esc a +:+ "\ " +:+ esc b) /\
  (forall v, GoStrings.spacesEscaped (esc v) = true) /\
  (forall v, GoStrings.count " "%char v = 0%nat -> esc v = v) /\
  (* values without a space *)
  (GoStrings.count " "%char (fc_Label folderConfig) = 0%nat ->
   tag_value "folder_label" fl = Some (fc_Label folderConfig)) /\
  (GoStrings.count " "%char (nameOf deviceNames k) = 0%nat ->
   tag_value "device_name" dl = Some (nameOf deviceNames k)) /\
  (GoStrings.count " "%char (fc_ID folderConfig) = 0%nat ->
   tag_value "folder_id" fl = Some (fc_ID folderConfig)) /\
  (GoStrings.count " "%char k = 0%nat ->
   tag_value "device_id" dl = Some k /\ tag_value "client_id" cl = Some k).
Proof.
  intros esc fl dl cl. split_and!; try reflexivity.
  - apply EscapeFacts.escapeSpaces_around.
  - intros v. apply EscapeFacts.escapeSpaces_escaped_from.
  - apply EscapeFacts.escapeSpaces_no_space.
  - intros H. unfold tag_value, fl. cbn [folderLine tags assoc String.eqb].
    cbn. f_equal. by apply EscapeFacts.escapeSpaces_no_space.
  - intros H. unfold tag_value, dl. cbn.
    f_equal. by apply EscapeFacts.escapeSpaces_no_space.
  - intros _. split; reflexivity.
Qed.

(** C4 as stated fails for the ids: the scripted daemon has a folder
    with id [b c]; its record is printed with the space of the id as it
    is, while the claim asks for [b\ c].  The same holds for a peer id. *)
Lemma C4_id_space_not_escaped :
  let l := folderLine (mkFolderConfig "b c" "Docs" 60 "sendonly")
                      Mock.statsB in
  l ∈ stdoutLines (main (Mock.env true true) (Mock.flags false)).1 /\
  tag_value "folder_id" l = Some "b c" /\
  GoStrings.escapeSpaces "b c" = "b\ c" /\
  tag_value "folder_id" l <> Some (GoStrings.escapeSpaces "b c") /\
  line_head l = "syncthing_folder,folder_id=b c,folder_label=Docs" /\
  GoStrings.spacesEscaped (line_head l) = false /\
  line_head (connectionLine "my peer" Mock.peerUp)
  = "syncthing_connection,client_id=my peer".
Proof.
  cbv zeta. split_and!; try (vm_compute; reflexivity).
  - apply list_elem_of_In. vm_compute. tauto.
  - vm_compute. discriminate.
Qed.

(* ===================================================================== *)
(** ** Which goroutine prints which measurement *)
(* ===================================================================== *)

Lemma emitsOnly_nil ms : emitsOnly ms [].
Proof. constructor. Qed.

Lemma emitsOnly_app ms a b :
  emitsOnly ms a -> emitsOnly ms b -> emitsOnly ms (a ++ b).
Proof.
  unfold emitsOnly. rewrite stdoutLines_app. intros. by apply Forall_app.
Qed.

Lemma emitsOnly_concat ms us :
  Forall (emitsOnly ms) us -> emitsOnly ms (concat us).
Proof.
  induction 1; cbn [concat]; [apply emitsOnly_nil | by apply emitsOnly_app].
Qed.

Lemma emitsOnly_no_stdout ms tr : stdoutLines tr = [] -> emitsOnly ms tr.
Proof. unfold emitsOnly. intros ->. constructor. Qed.

Lemma emitsOnly_other ms m tr :
  emitsOnly ms tr -> m ∉ ms -> linesOf m tr = [].
Proof.
  unfold emitsOnly, linesOf. intros H Hm.
  induction H as [|l ls Hl _ IH]; [done|].
  rewrite filter_cons_False; [exact IH|]. intros E. apply Hm. by rewrite <- E.
Qed.

Section Measurements.

Variables (env : Env) (srv apiKey : string).

Lemma makeRequest_emitsOnly ms u path :
  emitsOnly ms (events (makeRequest env srv u apiKey path)).
Proof. apply emitsOnly_no_stdout, makeRequest_stdout. Qed.

Lemma handleSystemConnections_emitsOnly :
  emitsOnly ["syncthing_connection_totals"; "syncthing_connection"]
            (events (handleSystemConnections env srv apiKey)).
Proof.
  destruct (value (makeRequest env srv UConnections apiKey
                     "rest/system/connections")) as [e|resp] eqn:Hf.
  - apply emitsOnly_no_stdout. unfold handleSystemConnections.
    by rewrite events_bind, stdoutLines_app, makeRequest_stdout, Hf.
  - destruct (decodeConnections env (rs_Body resp)) as [e|stats] eqn:Hd.
    + apply emitsOnly_no_stdout. unfold handleSystemConnections.
      by rewrite events_bind, stdoutLines_app, makeRequest_stdout, Hf, Hd.
    + unfold emitsOnly.
      rewrite (handleSystemConnections_stdout _ _ _ _ _ Hf Hd).
      constructor; [set_solver|].
      apply Forall_forall. intros l Hl.
      rewrite (measurement_kept_connection env stats l Hl). set_solver.
Qed.

Lemma handleDevices_emitsOnly :
  emitsOnly ["syncthing_device_totals"; "syncthing_device"]
            (events (handleDevices env srv apiKey)).
Proof.
  destruct (value (makeRequest env srv UDevices apiKey
                     "rest/config/devices")) as [e|resp1] eqn:H1.
  { apply emitsOnly_no_stdout. unfold handleDevices.
    by rewrite events_bind, stdoutLines_app, makeRequest_stdout, H1. }
  destruct (decodeDeviceConfigs env (rs_Body resp1)) as [e|cfgs] eqn:H2.
  { apply emitsOnly_no_stdout. unfold handleDevices.
    by rewrite events_bind, stdoutLines_app, makeRequest_stdout, H1, H2. }
  destruct (value (makeRequest env srv UDevices apiKey
                     "rest/stats/device")) as [e|resp2] eqn:H3.
  { apply emitsOnly_no_stdout. unfold handleDevices.
    rewrite events_bind, stdoutLines_app, makeRequest_stdout, H1, H2.
    by rewrite events_bind, stdoutLines_app, makeRequest_stdout, H3. }
  destruct (decodeDevices env (rs_Body resp2)) as [e|stats] eqn:H4.
  { apply emitsOnly_no_stdout. unfold handleDevices.
    rewrite events_bind, stdoutLines_app, makeRequest_stdout, H1, H2.
    by rewrite events_bind, stdoutLines_app, makeRequest_stdout, H3, H4. }
  unfold emitsOnly. rewrite (handleDevices_stdout _ _ _ _ _ _ _ H1 H2 H3 H4).
  constructor; [set_solver|].
  apply Forall_forall. intros l Hl.
  rewrite (measurement_kept_device env cfgs stats l Hl). set_solver.
Qed.

(** A folder goroutine sends what [makeRequest] sends and then writes
    exactly once: the folder's record, or an error. *)
Lemma handleFolderStats_events i folderConfig :
  events (handleFolderStats env srv i apiKey folderConfig)
  = events (makeRequest env srv (UFolderStats i) apiKey
              ("rest/db/status?folder=" +:+ fc_ID folderConfig))
    ++ [match fetchFolderStats env srv apiKey i folderConfig with
        | inr stats => Stdout (folderLine folderConfig stats)
        | inl msg => Stderr msg
        end].
Proof.
  unfold handleFolderStats, fetchFolderStats. rewrite events_bind. f_equal.
  destruct (value (makeRequest env srv (UFolderStats i) apiKey _)) as [e|resp];
    [reflexivity|].
  by destruct (decodeFolderStats env (rs_Body resp)).
Qed.

Lemma handleFolderStats_stdout i folderConfig :
  stdoutLines (events (handleFolderStats env srv i apiKey folderConfig))
  = match fetchFolderStats env srv apiKey i folderConfig with
    | inr stats => [folderLine folderConfig stats]
    | inl _ => []
    end.
Proof.
  rewrite handleFolderStats_events, stdoutLines_app, makeRequest_stdout.
  by destruct (fetchFolderStats env srv apiKey i folderConfig).
Qed.

Lemma handleFolderStats_emitsOnly i folderConfig :
  emitsOnly ["syncthing_folder"]
            (events (handleFolderStats env srv i apiKey folderConfig)).
Proof.
  unfold emitsOnly. rewrite handleFolderStats_stdout.
  destruct (fetchFolderStats env srv apiKey i folderConfig); repeat constructor.
Qed.

Lemma handleReport_stdout :
  stdoutLines (events (handleReport env srv apiKey))
  = match fetchReport env srv apiKey with
    | inr stats => [reportLine stats]
    | inl _ => []
    end.
Proof.
  unfold handleReport, fetchReport.
  rewrite events_bind, stdoutLines_app, makeRequest_stdout.
  destruct (value (makeRequest env srv UReport apiKey _)) as [e|resp];
    [reflexivity|].
  by destruct (decodeReport env (rs_Body resp)).
Qed.

Lemma handleReport_value :
  value (handleReport env srv apiKey)
  = match fetchReport env srv apiKey with
    | inr _ => None
    | inl err => Some err
    end.
Proof.
  unfold handleReport, fetchReport. rewrite value_bind.
  destruct (value (makeRequest env srv UReport apiKey _)) as [e|resp];
    [reflexivity|].
  by destruct (decodeReport env (rs_Body resp)).
Qed.

Lemma handleReport_emitsOnly :
  emitsOnly ["syncthing_report"] (events (handleReport env srv apiKey)).
Proof.
  unfold emitsOnly. rewrite handleReport_stdout.
  destruct (fetchReport env srv apiKey); repeat constructor.
Qed.

End Measurements.

(* ===================================================================== *)
(** ** The goroutines of [main] *)
(* ===================================================================== *)

Section MainThreads.

Variables (env : Env) (srv apiKey : string).

Lemma own_wrapHandler (h : Handler) :
  own (wrapHandler h apiKey)
  = events (h apiKey).1 ++ failureReport (value (h apiKey).1).
Proof.
  unfold wrapHandler. cbn [own]. rewrite events_bind. f_equal.
  by destruct (value (h apiKey).1).
Qed.

Lemma children_wrapHandler (h : Handler) :
  children (wrapHandler h apiKey) = (h apiKey).2.
Proof. reflexivity. Qed.

Lemma runThread_plain (h : string -> IO (option error)) :
  runThread (wrapHandler (plain h) apiKey)
  = events (h apiKey) ++ failureReport (value (h apiKey)).
Proof.
  unfold runThread. rewrite own_wrapHandler, children_wrapHandler.
  cbn [plain fst snd concat]. by rewrite app_nil_r.
Qed.

Lemma failureReport_emitsOnly ms err : emitsOnly ms (failureReport err).
Proof. apply emitsOnly_no_stdout. by destruct err. Qed.

Lemma plain_emitsOnly ms (h : string -> IO (option error)) :
  emitsOnly ms (events (h apiKey)) ->
  emitsOnly ms (runThread (wrapHandler (plain h) apiKey)).
Proof.
  intros H. rewrite runThread_plain.
  apply emitsOnly_app; [exact H | apply failureReport_emitsOnly].
Qed.

Lemma linesOf_plain m (h : string -> IO (option error)) :
  linesOf m (runThread (wrapHandler (plain h) apiKey))
  = linesOf m (events (h apiKey)).
Proof.
  rewrite runThread_plain, linesOf_app.
  rewrite (emitsOnly_other [] m _ (failureReport_emitsOnly [] _))
    by other_measurement.
  by rewrite app_nil_r.
Qed.

Lemma handleFolders_events :
  events (handleFolders env srv apiKey).1
  = events (makeRequest env srv UFolders apiKey "rest/config/folders").
Proof.
  unfold handleFolders.
  destruct (value (makeRequest env srv UFolders apiKey _)) as [e|resp];
    [reflexivity|].
  by destruct (decodeFolderConfigs env (rs_Body resp)).
Qed.

Lemma handleFolders_value :
  value (handleFolders env srv apiKey).1
  = match fetchFolders env srv apiKey with
    | inr _ => None
    | inl err => Some err
    end.
Proof.
  unfold handleFolders, fetchFolders.
  destruct (value (makeRequest env srv UFolders apiKey _)) as [e|resp];
    [reflexivity|].
  by destruct (decodeFolderConfigs env (rs_Body resp)).
Qed.

Lemma handleFolders_children :
  (handleFolders env srv apiKey).2
  = match fetchFolders env srv apiKey with
    | inr folderConfig => spawnFolderStats env srv apiKey folderConfig
    | inl _ => []
    end.
Proof.
  unfold handleFolders, fetchFolders.
  destruct (value (makeRequest env srv UFolders apiKey _)) as [e|resp];
    [reflexivity|].
  by destruct (decodeFolderConfigs env (rs_Body resp)).
Qed.

Lemma spawnFolderStats_emitsOnly folderConfig :
  Forall (emitsOnly ["syncthing_folder"])
         (spawnFolderStats env srv apiKey folderConfig).
Proof.
  apply Forall_forall. intros u Hu. unfold spawnFolderStats in Hu.
  apply list_elem_of_lookup in Hu as [i Hi].
  rewrite list_lookup_imap in Hi.
  destruct (folderConfig !! i) as [fc|]; [|done].
  injection Hi as <-. apply handleFolderStats_emitsOnly.
Qed.

Lemma folders_children_emitsOnly :
  emitsOnly ["syncthing_folder"] (concat (handleFolders env srv apiKey).2).
Proof.
  apply emitsOnly_concat. rewrite handleFolders_children.
  destruct (fetchFolders env srv apiKey);
    [constructor | apply spawnFolderStats_emitsOnly].
Qed.

Lemma folders_thread_emitsOnly :
  emitsOnly ["syncthing_folder"]
            (runThread (wrapHandler (handleFolders env srv) apiKey)).
Proof.
  unfold runThread. rewrite own_wrapHandler, children_wrapHandler.
  repeat apply emitsOnly_app.
  - rewrite handleFolders_events. apply makeRequest_emitsOnly.
  - apply failureReport_emitsOnly.
  - apply folders_children_emitsOnly.
Qed.

(** The folder records of the folders goroutine are those of the
    goroutines it started. *)
Lemma linesOf_folders_thread m :
  linesOf m (runThread (wrapHandler (handleFolders env srv) apiKey))
  = linesOf m (concat (handleFolders env srv apiKey).2).
Proof.
  unfold runThread. rewrite own_wrapHandler, children_wrapHandler.
  rewrite !linesOf_app.
  rewrite (emitsOnly_other [] m (events _)); [|rewrite handleFolders_events;
    apply makeRequest_emitsOnly | other_measurement].
  by rewrite (emitsOnly_other [] m _ (failureReport_emitsOnly [] _))
    by other_measurement.
Qed.

End MainThreads.

(** The record lines of a run, goroutine by goroutine. *)
Lemma Runs_linesOf env f tr code m :
  apiKeyFlag f <> "" ->
  Runs env f tr code ->
  linesOf m tr
  ≡ₚ linesOf m (concat (handleFolders env (server f) (apiKeyFlag f)).2)
     ++ linesOf m (events (handleSystemConnections env (server f)
                             (apiKeyFlag f)))
     ++ linesOf m (events (handleDevices env (server f) (apiKeyFlag f)))
     ++ (if useFullReportFlag f
         then linesOf m (events (handleReport env (server f) (apiKeyFlag f)))
         else []).
Proof.
  intros Hkey Hrun. destruct (Runs_perm _ _ _ _ Hkey Hrun) as [_ ->].
  unfold mainThreads, allHandlers. rewrite !map_app. cbn [map].
  rewrite concat_app. cbn [concat]. rewrite !linesOf_app.
  rewrite linesOf_folders_thread, !linesOf_plain.
  change (linesOf m []) with (@nil Line). rewrite app_nil_r.
  destruct (useFullReportFlag f); cbn [map concat].
  - rewrite app_nil_r, linesOf_plain. by rewrite <- !(assoc_L (++)).
  - change (linesOf m []) with (@nil Line). by rewrite <- !(assoc_L (++)).
Qed.





(* ===================================================================== *)
(** ** The folder handler *)
(* ===================================================================== *)

Section FolderFanOut.

Variables (env : Env) (srv apiKey : string).

Lemma linesOf_folder_unit i folder :
  linesOf "syncthing_folder"
          (events (handleFolderStats env srv i apiKey folder))
  = match folderRecord env srv apiKey i folder with
    | Some l => [l]
    | None => []
    end.
Proof.
  unfold linesOf, folderRecord. rewrite handleFolderStats_stdout.
  by destruct (fetchFolderStats env srv apiKey i folder).
Qed.

Lemma linesOf_spawned_from (g : nat -> nat) folderConfig :
  linesOf "syncthing_folder"
    (concat (imap (fun i folder =>
                     events (handleFolderStats env srv (g i) apiKey folder))
                  folderConfig))
  = omap id (imap (fun i folder => folderRecord env srv apiKey (g i) folder)
                  folderConfig).
Proof.
  revert g. induction folderConfig as [|folder rest IH]; intros g;
    [reflexivity|].
  rewrite !imap_cons. cbn [concat].
  rewrite linesOf_app, linesOf_folder_unit.
  specialize (IH (g ∘ S)). unfold compose in *. rewrite IH.
  change (omap id (?x :: ?l))
    with (match id x with Some y => y :: omap id l | None => omap id l end).
  unfold id at 2. by destruct (folderRecord env srv apiKey (g 0%nat) folder).
Qed.

Lemma linesOf_spawned folderConfig :
  linesOf "syncthing_folder"
          (concat (spawnFolderStats env srv apiKey folderConfig))
  = folderRecords env srv apiKey folderConfig.
Proof. apply (linesOf_spawned_from (fun i => i)). Qed.

Lemma elem_of_folderRecords folderConfig i folder stats :
  folderConfig !! i = Some folder ->
  fetchFolderStats env srv apiKey i folder = inr stats ->
  folderLine folder stats ∈ folderRecords env srv apiKey folderConfig.
Proof.
  intros Hi Hs. unfold folderRecords. apply list_elem_of_omap.
  exists (Some (folderLine folder stats)). split; [|done].
  apply list_elem_of_lookup. exists i.
  rewrite list_lookup_imap, Hi. cbn. unfold folderRecord. by rewrite Hs.
Qed.

(** What a folder goroutine sends. *)
Lemma requests_folder_unit i folder :
  requests (events (handleFolderStats env srv i apiKey folder))
  = match url_Parse_error env
            (srv +:+ "/" +:+ "rest/db/status?folder=" +:+ fc_ID folder) with
    | None => [apiRequest srv apiKey
                 ("rest/db/status?folder=" +:+ fc_ID folder)]
    | Some _ => []
    end.
Proof.
  rewrite handleFolderStats_events, requests_app.
  assert (Hlast : forall x : Result FolderStats,
            requests [match x with
                      | inr stats => Stdout (folderLine folder stats)
                      | inl msg => Stderr msg
                      end] = []) by (by intros [?|?]).
  rewrite Hlast, app_nil_r.
  destruct (url_Parse_error env _) as [cause|] eqn:Hp.
  - by rewrite (makeRequest_unparsable _ _ _ _ _ _ Hp).
  - by rewrite (makeRequest_parsable _ _ _ _ _ Hp).
Qed.

End FolderFanOut.

(** C1: when the folder list has been fetched and decoded to [N]
    folders, the folder handler starts [N] goroutines, the [i]-th one for
    the [i]-th folder; each makes its one status fetch (one request to
    [rest/db/status?folder=id], or none if that URL cannot be built) and
    prints the folder's record exactly when its own fetch and decode
    succeed.  In every run the [syncthing_folder] lines are therefore
    exactly the records of the folders whose fetch succeeded: a failure
    for one folder removes its record only. *)
Theorem C1_one_status_fetch_per_folder
    env f resp folderConfig tr code :
  apiKeyFlag f <> "" ->
  value (makeRequest env (server f) UFolders (apiKeyFlag f)
           "rest/config/folders") = inr resp ->
  decodeFolderConfigs env (rs_Body resp) = inr folderConfig ->
  Runs env f tr code ->
  let srv := server f in
  let apiKey := apiKeyFlag f in
  let started := children (wrapHandler (handleFolders env srv) apiKey) in
  length started = length folderConfig /\
  (forall i folder, folderConfig !! i = Some folder ->
     started !! i = Some (events (handleFolderStats env srv i apiKey folder)) /\
     requests (events (handleFolderStats env srv i apiKey folder))
     = match url_Parse_error env
               (srv +:+ "/" +:+ "rest/db/status?folder=" +:+ fc_ID folder)
       with
       | None => [apiRequest srv apiKey
                    ("rest/db/status?folder=" +:+ fc_ID folder)]
       | Some _ => []
       end /\
     stdoutLines (events (handleFolderStats env srv i apiKey folder))
     = match fetchFolderStats env srv apiKey i folder with
       | inr stats => [folderLine folder stats]
       | inl _ => []
       end) /\
  linesOf "syncthing_folder" tr
  ≡ₚ folderRecords env srv apiKey folderConfig /\
  (forall i folder stats,
     folderConfig !! i = Some folder ->
     fetchFolderStats env srv apiKey i folder = inr stats ->
     folderLine folder stats ∈ linesOf "syncthing_folder" tr).
Proof.
  intros Hkey Hf Hd Hrun srv apiKey started.
  assert (Hfetch : fetchFolders env srv apiKey = inr folderConfig).
  { unfold fetchFolders, srv, apiKey. by rewrite Hf, Hd. }
  assert (Hstarted : started = spawnFolderStats env srv apiKey folderConfig).
  { unfold started. rewrite children_wrapHandler, handleFolders_children.
    by rewrite Hfetch. }
  assert (Hlines : linesOf "syncthing_folder" tr
                   ≡ₚ folderRecords env srv apiKey folderConfig).
  { rewrite (Runs_linesOf env f tr code "syncthing_folder" Hkey Hrun).
    rewrite (emitsOnly_other _ _ _ (handleSystemConnections_emitsOnly _ _ _))
      by other_measurement.
    rewrite (emitsOnly_other _ _ _ (handleDevices_emitsOnly _ _ _))
      by other_measurement.
    assert (Hrep : (if useFullReportFlag f
                    then linesOf "syncthing_folder"
                           (events (handleReport env (server f)
                                      (apiKeyFlag f)))
                    else []) = []).
    { destruct (useFullReportFlag f); [|done].
      by rewrite (emitsOnly_other _ _ _ (handleReport_emitsOnly _ _ _))
        by other_measurement. }
    rewrite Hrep. cbn [app]. rewrite app_nil_r.
    fold srv apiKey. rewrite handleFolders_children, Hfetch.
    by rewrite linesOf_spawned. }
  split_and!.
  - rewrite Hstarted. unfold spawnFolderStats. apply length_imap.
  - intros i folder Hi. split_and!.
    + rewrite Hstarted. unfold spawnFolderStats.
      by rewrite list_lookup_imap, Hi.
    + apply requests_folder_unit.
    + apply handleFolderStats_stdout.
  - exact Hlines.
  - intros i folder stats Hi Hs. rewrite Hlines.
    by apply (elem_of_folderRecords env srv apiKey folderConfig i).
Qed.

(** The scripted daemon: three folders, the status of the third one does
    not answer; the run has the records of the first two. *)
Lemma C1_one_status_fetch_per_folder_witness :
  let env := Mock.env true true in
  let f := Mock.flags false in
  let tr := (main env f).1 in
  let srv := server f in
  let apiKey := apiKeyFlag f in
  let started := children (wrapHandler (handleFolders env srv) apiKey) in
  length started = length Mock.folders /\
  (forall i folder, Mock.folders !! i = Some folder ->
     started !! i = Some (events (handleFolderStats env srv i apiKey folder)) /\
     requests (events (handleFolderStats env srv i apiKey folder))
     = match url_Parse_error env
               (srv +:+ "/" +:+ "rest/db/status?folder=" +:+ fc_ID folder)
       with
       | None => [apiRequest srv apiKey
                    ("rest/db/status?folder=" +:+ fc_ID folder)]
       | Some _ => []
       end /\
     stdoutLines (events (handleFolderStats env srv i apiKey folder))
     = match fetchFolderStats env srv apiKey i folder with
       | inr stats => [folderLine folder stats]
       | inl _ => []
       end) /\
  linesOf "syncthing_folder" tr
  ≡ₚ folderRecords env srv apiKey Mock.folders /\
  (forall i folder stats,
     Mock.folders !! i = Some folder ->
     fetchFolderStats env srv apiKey i folder = inr stats ->
     folderLine folder stats ∈ linesOf "syncthing_folder" tr).
Proof.
  apply (C1_one_status_fetch_per_folder (Mock.env true true)
           (Mock.flags false) (mkResponse 200 "folders") Mock.folders
           (main (Mock.env true true) (Mock.flags false)).1
           (main (Mock.env true true) (Mock.flags false)).2).
  - discriminate.
  - vm_compute. reflexivity.
  - vm_compute. reflexivity.
  - apply main_Runs.
Defined.

Example mock_folder_lines :
  map line_head
      (linesOf "syncthing_folder"
         (main (Mock.env true true) (Mock.flags false)).1)
  = ["syncthing_folder,folder_id=a,folder_label=My\ Pics";
     "syncthing_folder,folder_id=b c,folder_label=Docs"] /\
  stderrWrites (main (Mock.env true true) (Mock.flags false)).1
  = ["Unable to read status for d: HTTP request failed: context deadline exceeded"].
Proof. vm_compute. split; reflexivity. Qed.

(* ===================================================================== *)
(** ** Exit status *)
(* ===================================================================== *)





Example mock_unauthorized :
  main (Mock.env false true) (mkFlags Mock.base "" true)
  = ([StdoutText "Invalid API key"], 1) /\
  (main (Mock.env false true) (Mock.flags true)).2 = 0 /\
  length (stderrWrites (main (Mock.env false true) (Mock.flags true)).1)
  = 4%nat /\
  stdoutLines (main (Mock.env false true) (Mock.flags true)).1 = [].
Proof. vm_compute. repeat split. Qed.

(* ===================================================================== *)
(** ** Further properties: the escaping of tag values *)
(* ===================================================================== *)

Module EscapeMore.
Import GoStrings.

(** An escaped value never begins with a space. *)
Lemma escapeSpaces_head v d r : escapeSpaces v = String d r -> d <> space.
Proof.
  destruct v as [|c v]; [discriminate|].
  destruct (Ascii.eqb_spec c space) as [->|Hc].
  - rewrite EscapeFacts.escapeSpaces_space. intros [= <- _]. discriminate.
  - rewrite EscapeFacts.escapeSpaces_other by done. by intros [= <- _].
Qed.

Lemma escapeSpaces_empty v : escapeSpaces v = "" -> v = "".
Proof.
  destruct v as [|c v]; [done|].
  destruct (Ascii.eqb_spec c space) as [->|Hc].
  - rewrite EscapeFacts.escapeSpaces_space. discriminate.
  - rewrite EscapeFacts.escapeSpaces_other by done. discriminate.
Qed.

(** Reading back what was escaped gives the value. *)
Lemma unescape_escape v : unescapeSpaces (escapeSpaces v) = v.
Proof.
  induction v as [|c v IH]; [reflexivity|].
  destruct (Ascii.eqb_spec c space) as [->|Hc].
  - rewrite EscapeFacts.escapeSpaces_space.
    cbn [unescapeSpaces]. rewrite !Ascii.eqb_refl. cbn [andb].
    by rewrite IH.
  - rewrite EscapeFacts.escapeSpaces_other by done.
    cbn [unescapeSpaces]. fold unescapeSpaces.
    destruct (escapeSpaces v) as [|d r] eqn:He.
    + by rewrite (escapeSpaces_empty v He).
    + pose proof (escapeSpaces_head v d r He) as Hd.
      destruct (Ascii.eqb_spec d space) as [->|_]; [done|].
      rewrite andb_false_r. by rewrite IH.
Qed.

Lemma count_escape_other c v :
  c <> backslash -> count c (escapeSpaces v) = count c v.
Proof.
  intros Hc. induction v as [|d v IH]; [reflexivity|].
  destruct (Ascii.eqb_spec d space) as [->|Hd].
  - rewrite EscapeFacts.escapeSpaces_space. cbn [count]. rewrite IH.
    destruct (Ascii.eqb_spec backslash c) as [E|_]; [by destruct Hc|].
    reflexivity.
  - rewrite EscapeFacts.escapeSpaces_other by done. cbn [count].
    by rewrite IH.
Qed.

Lemma count_escape_backslash v :
  count backslash (escapeSpaces v)
  = (count backslash v + count space v)%nat.
Proof.
  induction v as [|d v IH]; [reflexivity|].
  destruct (Ascii.eqb_spec d space) as [->|Hd].
  - rewrite EscapeFacts.escapeSpaces_space. cbn [count]. rewrite IH.
    rewrite !Ascii.eqb_refl. cbn. lia.
  - rewrite EscapeFacts.escapeSpaces_other by done. cbn [count].
    rewrite IH. destruct (Ascii.eqb_spec d space); [done|]. lia.
Qed.

Lemma length_escape v :
  String.length (escapeSpaces v) = (String.length v + count space v)%nat.
Proof.
  induction v as [|d v IH]; [reflexivity|].
  destruct (Ascii.eqb_spec d space) as [->|Hd].
  - rewrite EscapeFacts.escapeSpaces_space. cbn [String.length count].
    rewrite IH, Ascii.eqb_refl. lia.
  - rewrite EscapeFacts.escapeSpaces_other by done.
    cbn [String.length count]. rewrite IH.
    destruct (Ascii.eqb_spec d space); [done|]. lia.
Qed.

End EscapeMore.

(** X1: the escaping of labels and names loses nothing: two values with
    the same escaped form are the same value. *)
Theorem X1_escapeSpaces_injective (a b : string) :
  GoStrings.escapeSpaces a = GoStrings.escapeSpaces b -> a = b.
Proof.
  intros H. rewrite <- (EscapeMore.unescape_escape a), H.
  apply EscapeMore.unescape_escape.
Qed.

Lemma X1_escapeSpaces_injective_witness :
  GoStrings.escapeSpaces "My Pics" = "My\ Pics" /\ "My Pics" = "My Pics".
Proof.
  split; [reflexivity|].
  apply (X1_escapeSpaces_injective "My Pics" "My Pics"). reflexivity.
Defined.

(** X2: the escaping adds one backslash per space and nothing else: the
    escaped value is longer by the number of spaces, has that many more
    backslashes, and has every other byte as often as the value; in
    particular a comma or an equals sign in a label or name is written
    as it is. *)
Theorem X2_escapeSpaces_adds_one_backslash_per_space (v : string) :
  let spaces := GoStrings.count " "%char v in
  String.length (GoStrings.escapeSpaces v) = (String.length v + spaces)%nat /\
  GoStrings.count "\"%char (GoStrings.escapeSpaces v)
  = (GoStrings.count "\"%char v + spaces)%nat /\
  (forall c, c <> "\"%char ->
     GoStrings.count c (GoStrings.escapeSpaces v) = GoStrings.count c v) /\
  GoStrings.count ","%char (GoStrings.escapeSpaces v)
  = GoStrings.count ","%char v /\
  GoStrings.count "="%char (GoStrings.escapeSpaces v)
  = GoStrings.count "="%char v.
Proof.
  split_and!.
  - apply EscapeMore.length_escape.
  - apply EscapeMore.count_escape_backslash.
  - intros c Hc. by apply EscapeMore.count_escape_other.
  - by apply EscapeMore.count_escape_other.
  - by apply EscapeMore.count_escape_other.
Qed.

(* ===================================================================== *)
(** ** Further properties: device names *)
(* ===================================================================== *)

Lemma buildDeviceNames_snoc (deviceConfigs : list DeviceConfig) device :
  buildDeviceNames (deviceConfigs ++ [device])
  = <[dc_DeviceID device := dc_Name device]> (buildDeviceNames deviceConfigs).
Proof. unfold buildDeviceNames. by rewrite foldl_app. Qed.

(** Entries with other ids leave the binding of [k] alone. *)
Lemma names_foldl_other (rest : list DeviceConfig) (acc : gmap string string)
    (k : string) :
  Forall (fun device => dc_DeviceID device <> k) rest ->
  foldl (fun names device => <[dc_DeviceID device := dc_Name device]> names)
        acc rest !! k = acc !! k.
Proof.
  revert acc. induction rest as [|d rest IH]; intros acc Hne; [done|].
  apply Forall_cons in Hne as [Hd Hrest]. cbn [foldl].
  rewrite (IH _ Hrest). by apply lookup_insert_ne.
Qed.

Lemma buildDeviceNames_last (before after : list DeviceConfig) device :
  Forall (fun later => dc_DeviceID later <> dc_DeviceID device) after ->
  buildDeviceNames (before ++ device :: after) !! dc_DeviceID device
  = Some (dc_Name device).
Proof.
  intros Hne. unfold buildDeviceNames. rewrite foldl_app. cbn [foldl].
  rewrite (names_foldl_other _ _ _ Hne). apply lookup_insert_eq.
Qed.

(** X3: the name looked up for a device id is the name of the last entry
    of the device configuration with that id (a later entry overrides an
    earlier one), and the empty string when no entry has the id. *)
Theorem X3_device_name_of_last_entry
    (before after : list DeviceConfig) (device : DeviceConfig) (k : string) :
  Forall (fun later => dc_DeviceID later <> dc_DeviceID device) after ->
  nameOf (buildDeviceNames (before ++ device :: after)) (dc_DeviceID device)
  = dc_Name device /\
  (Forall (fun entry => dc_DeviceID entry <> k) (before ++ device :: after) ->
   nameOf (buildDeviceNames (before ++ device :: after)) k = "").
Proof.
  intros Hne. split.
  - unfold nameOf. by rewrite (buildDeviceNames_last _ _ _ Hne).
  - intros Hk. unfold nameOf.
    by rewrite (proj2 (buildDeviceNames_None _ k) Hk).
Qed.

(** Two entries for PEER1: the second name is the one looked up. *)
Lemma X3_device_name_of_last_entry_witness :
  nameOf (buildDeviceNames
            ([mkDeviceConfig "PEER1" "old name"]
             ++ mkDeviceConfig "PEER1" "Alice Laptop"
                :: [mkDeviceConfig "PEER2" "nas"]))
         "PEER1"
  = "Alice Laptop" /\
  (Forall (fun entry => dc_DeviceID entry <> "PEER9")
          ([mkDeviceConfig "PEER1" "old name"]
           ++ mkDeviceConfig "PEER1" "Alice Laptop"
              :: [mkDeviceConfig "PEER2" "nas"]) ->
   nameOf (buildDeviceNames
             ([mkDeviceConfig "PEER1" "old name"]
              ++ mkDeviceConfig "PEER1" "Alice Laptop"
                 :: [mkDeviceConfig "PEER2" "nas"]))
          "PEER9" = "").
Proof.
  apply (X3_device_name_of_last_entry
           [mkDeviceConfig "PEER1" "old name"]
           [mkDeviceConfig "PEER2" "nas"]
           (mkDeviceConfig "PEER1" "Alice Laptop") "PEER9").
  repeat constructor. cbn. discriminate.
Defined.



(* ===================================================================== *)
(** ** Further properties: a handler that fails prints nothing *)
(* ===================================================================== *)

Section HandlerOutcomes.

Variables (env : Env) (srv apiKey : string).

(** Either the connections handler fails, having done nothing but its
    request, or the fetch and the decoding both succeeded. *)
Lemma handleSystemConnections_cases :
  (exists e,
     value (handleSystemConnections env srv apiKey) = Some e /\
     events (handleSystemConnections env srv apiKey)
     = events (makeRequest env srv UConnections apiKey
                 "rest/system/connections")) \/
  (exists resp stats,
     value (makeRequest env srv UConnections apiKey "rest/system/connections")
     = inr resp /\
     decodeConnections env (rs_Body resp) = inr stats /\
     value (handleSystemConnections env srv apiKey) = None).
Proof.
  destruct (value (makeRequest env srv UConnections apiKey
                     "rest/system/connections")) as [e|resp] eqn:Hf.
  - left. exists e. unfold handleSystemConnections.
    rewrite value_bind, events_bind, Hf. cbn. by rewrite app_nil_r.
  - destruct (decodeConnections env (rs_Body resp)) as [e|stats] eqn:Hd.
    + left. exists ("invalid response body: " +:+ e).
      unfold handleSystemConnections.
      rewrite value_bind, events_bind, Hf, Hd. cbn. by rewrite app_nil_r.
    + right. exists resp, stats. split_and!; [done | done |].
      by apply (handleSystemConnections_value env srv apiKey resp stats).
Qed.

(** The devices handler fails before its second request, or after it, or
    all four steps succeeded. *)
Lemma handleDevices_cases :
  (exists e,
     value (handleDevices env srv apiKey) = Some e /\
     events (handleDevices env srv apiKey)
     = events (makeRequest env srv UDevices apiKey "rest/config/devices")) \/
  (exists e,
     value (handleDevices env srv apiKey) = Some e /\
     events (handleDevices env srv apiKey)
     = events (makeRequest env srv UDevices apiKey "rest/config/devices")
       ++ events (makeRequest env srv UDevices apiKey "rest/stats/device")) \/
  (exists resp1 deviceConfigs resp2 stats,
     value (makeRequest env srv UDevices apiKey "rest/config/devices")
     = inr resp1 /\
     decodeDeviceConfigs env (rs_Body resp1) = inr deviceConfigs /\
     value (makeRequest env srv UDevices apiKey "rest/stats/device")
     = inr resp2 /\
     decodeDevices env (rs_Body resp2) = inr stats /\
     value (handleDevices env srv apiKey) = None).
Proof.
  destruct (value (makeRequest env srv UDevices apiKey
                     "rest/config/devices")) as [e|resp1] eqn:H1.
  { left. exists e. unfold handleDevices.
    rewrite value_bind, events_bind, H1. cbn. by rewrite app_nil_r. }
  destruct (decodeDeviceConfigs env (rs_Body resp1)) as [e|cfgs] eqn:H2.
  { left. exists ("invalid response body: " +:+ e). unfold handleDevices.
    rewrite value_bind, events_bind, H1, H2. cbn. by rewrite app_nil_r. }
  destruct (value (makeRequest env srv UDevices apiKey
                     "rest/stats/device")) as [e|resp2] eqn:H3.
  { right. left. exists e. unfold handleDevices.
    rewrite value_bind, events_bind, H1, H2.
    rewrite value_bind, events_bind, H3. cbn. by rewrite app_nil_r. }
  destruct (decodeDevices env (rs_Body resp2)) as [e|stats] eqn:H4.
  { right. left. exists ("invalid response body: " +:+ e).
    unfold handleDevices.
    rewrite value_bind, events_bind, H1, H2.
    rewrite value_bind, events_bind, H3, H4. cbn. by rewrite app_nil_r. }
  right. right. exists resp1, cfgs, resp2, stats.
  split_and!; try done.
  by apply (handleDevices_value env srv apiKey resp1 resp2 cfgs stats).
Qed.

End HandlerOutcomes.

(** X5: output is all or nothing per handler.  A connections, devices or
    report handler that returns an error has printed no record at all;
    one that returns no error has printed exactly one totals line
    (connections, devices), respectively exactly one report line. *)
Theorem X5_failed_handler_prints_nothing env srv apiKey :
  let c := handleSystemConnections env srv apiKey in
  let d := handleDevices env srv apiKey in
  let r := handleReport env srv apiKey in
  (forall e, value c = Some e -> stdoutLines (events c) = []) /\
  (forall e, value d = Some e -> stdoutLines (events d) = []) /\
  (forall e, value r = Some e -> stdoutLines (events r) = []) /\
  (value c = None ->
   length (linesOf "syncthing_connection_totals" (events c)) = 1%nat) /\
  (value d = None ->
   length (linesOf "syncthing_device_totals" (events d)) = 1%nat) /\
  (value r = None -> length (stdoutLines (events r)) = 1%nat).
Proof.
  intros c d r. split_and!.
  - intros e He.
    destruct (handleSystemConnections_cases env srv apiKey)
      as [(e' & _ & Hev) | (resp & stats & _ & _ & Hv)].
    + unfold c. rewrite Hev. apply makeRequest_stdout.
    + unfold c in He. congruence.
  - intros e He.
    destruct (handleDevices_cases env srv apiKey)
      as [(e' & _ & Hev) | [(e' & _ & Hev)
                           | (r1 & cf & r2 & st & _ & _ & _ & _ & Hv)]].
    + unfold d. rewrite Hev. apply makeRequest_stdout.
    + unfold d. rewrite Hev, stdoutLines_app.
      by rewrite !makeRequest_stdout.
    + unfold d in He. congruence.
  - intros e He. unfold r in *.
    rewrite handleReport_value in He. rewrite handleReport_stdout.
    by destruct (fetchReport env srv apiKey).
  - intros Hv.
    destruct (handleSystemConnections_cases env srv apiKey)
      as [(e' & He & _) | (resp & stats & Hf & Hd & _)].
    + unfold c in Hv. congruence.
    + unfold c.
      by rewrite (handleSystemConnections_totals_lines _ _ _ _ _ Hf Hd).
  - intros Hv.
    destruct (handleDevices_cases env srv apiKey)
      as [(e' & He & _) | [(e' & He & _)
                          | (r1 & cf & r2 & st & H1 & H2 & H3 & H4 & _)]].
    + unfold d in Hv. congruence.
    + unfold d in Hv. congruence.
    + unfold d.
      by rewrite (handleDevices_totals_lines _ _ _ _ _ _ _ H1 H2 H3 H4).
  - intros Hv. unfold r in *.
    rewrite handleReport_value in Hv. rewrite handleReport_stdout.
    by destruct (fetchReport env srv apiKey).
Qed.

(** X6: the devices handler asks for the statistics only once the
    configuration has been fetched and decoded: if that first step fails,
    the handler's events are those of the one configuration request.  In
    no case does it send more than two requests, and when it sends two
    the configuration request comes first. *)
Theorem X6_devices_config_before_stats env srv apiKey :
  let h := handleDevices env srv apiKey in
  let config := makeRequest env srv UDevices apiKey "rest/config/devices" in
  ((exists e, value config = inl e) \/
   (exists resp e, value config = inr resp /\
                   decodeDeviceConfigs env (rs_Body resp) = inl e) ->
   events h = events config) /\
  (length (requests (events h)) <= 2)%nat /\
  (forall a b, requests (events h) = [a; b] ->
     a = apiRequest srv apiKey "rest/config/devices" /\
     b = apiRequest srv apiKey "rest/stats/device").
Proof.
  intros h config.
  assert (Hone : forall u path,
            (length (requests (events (makeRequest env srv u apiKey path)))
             <= 1)%nat).
  { intros u path.
    destruct (makeRequest_events env srv u apiKey path) as [-> | ->];
      cbn; lia. }
  split_and!.
  - intros [(e & He) | (resp & e & Hf & Hd)]; unfold h, handleDevices.
    + fold config. rewrite events_bind, He. cbn. by rewrite app_nil_r.
    + fold config. rewrite events_bind, Hf, Hd. cbn. by rewrite app_nil_r.
  - destruct (handleDevices_cases env srv apiKey)
      as [(e & _ & Hev) | [(e & _ & Hev)
                          | (r1 & cf & r2 & st & H1 & H2 & H3 & H4 & _)]].
    + unfold h. rewrite Hev. specialize (Hone UDevices "rest/config/devices").
      lia.
    + unfold h. rewrite Hev, requests_app, length_app.
      pose proof (Hone UDevices "rest/config/devices").
      pose proof (Hone UDevices "rest/stats/device"). lia.
    + unfold h, handleDevices.
      rewrite events_bind, H1, H2, events_bind, H3, H4.
      rewrite !requests_app, !length_app, events_bind, requests_app.
      rewrite events_bind, requests_app, length_app.
      rewrite (requests_loop seen (deviceLine (buildDeviceNames cf))).
      pose proof (Hone UDevices "rest/config/devices").
      pose proof (Hone UDevices "rest/stats/device"). cbn. lia.
  - intros a b Hab.
    assert (Hreq : forall u path,
              requests (events (makeRequest env srv u apiKey path)) = [] \/
              requests (events (makeRequest env srv u apiKey path))
              = [apiRequest srv apiKey path]).
    { intros u path.
      destruct (makeRequest_events env srv u apiKey path) as [-> | ->];
        [by left | by right]. }
    assert (Hshape : exists tail,
              requests (events h)
              = requests (events config)
                ++ tail /\
              (tail = [] \/
               tail = requests (events (makeRequest env srv UDevices apiKey
                                          "rest/stats/device")))).
    { destruct (handleDevices_cases env srv apiKey)
        as [(e & _ & Hev) | [(e & _ & Hev)
                            | (r1 & cf & r2 & st & H1 & H2 & H3 & H4 & _)]].
      - exists []. unfold h. rewrite Hev, app_nil_r. by split; [|left].
      - eexists. unfold h. rewrite Hev, requests_app. by split; [|right].
      - eexists. split; [|right; reflexivity].
        unfold h, handleDevices.
        rewrite events_bind, H1, H2, events_bind, H3, H4.
        rewrite !requests_app, events_bind, requests_app.
        rewrite events_bind, requests_app.
        rewrite (requests_loop seen (deviceLine (buildDeviceNames cf))).
        cbn. by rewrite app_nil_r. }
    destruct Hshape as (tail & Hsplit & Htail).
    rewrite Hsplit in Hab. unfold config in Hab.
    destruct (Hreq UDevices "rest/config/devices") as [E1|E1];
      rewrite E1 in Hab;
      destruct Htail as [-> | ->];
      try destruct (Hreq UDevices "rest/stats/device") as [E2|E2];
      try rewrite E2 in Hab; cbn in Hab; try discriminate.
    by injection Hab as <- <-.
Qed.

(* ===================================================================== *)
(** ** Further properties: the events of a run *)
(* ===================================================================== *)

(** The events of a run with an API key, goroutine by goroutine. *)
Lemma Runs_events env f tr code :
  apiKeyFlag f <> "" ->
  Runs env f tr code ->
  let srv := server f in
  let apiKey := apiKeyFlag f in
  tr ≡ₚ runThread (wrapHandler (handleFolders env srv) apiKey)
        ++ runThread (wrapHandler (plain (handleSystemConnections env srv))
                                  apiKey)
        ++ runThread (wrapHandler (plain (handleDevices env srv)) apiKey)
        ++ (if useFullReportFlag f
            then runThread (wrapHandler (plain (handleReport env srv)) apiKey)
            else []).
Proof.
  intros Hkey Hrun srv apiKey.
  destruct (Runs_perm _ _ _ _ Hkey Hrun) as [_ ->].
  unfold mainThreads, allHandlers. rewrite !map_app. cbn [map].
  rewrite concat_app. cbn [concat]. rewrite app_nil_r.
  rewrite <- !(assoc_L (++)).
  destruct (useFullReportFlag f); cbn [map concat]; by rewrite ?app_nil_r.
Qed.

Lemma calls_app (a b : list Event) : calls (a ++ b) = calls a ++ calls b.
Proof. apply omap_app. Qed.

#[export] Instance calls_perm : Proper ((≡ₚ) ==> (≡ₚ)) calls.
Proof. intros a b H. unfold calls. by rewrite H. Qed.

Lemma requests_calls tr : requests tr = (calls tr).*2.
Proof.
  induction tr as [|e tr IH]; [reflexivity|].
  change (e :: tr) with ([e] ++ tr).
  rewrite requests_app, calls_app, fmap_app, IH. f_equal. by destruct e.
Qed.

Lemma calls_no_requests tr : requests tr = [] -> calls tr = [].
Proof. rewrite requests_calls. apply fmap_nil_inv. Qed.

Lemma calls_failureReport err : calls (failureReport err) = [].
Proof. by destruct err. Qed.

Section Calls.

Variables (env : Env) (srv apiKey : string).

Lemma calls_makeRequest u path :
  calls (events (makeRequest env srv u apiKey path)) = [] \/
  calls (events (makeRequest env srv u apiKey path))
  = [(2000000000, apiRequest srv apiKey path)].
Proof.
  destruct (makeRequest_events env srv u apiKey path) as [-> | ->];
    [by left | by right].
Qed.

Lemma callsWithin_nil paths : callsWithin srv apiKey paths [].
Proof. constructor. Qed.

Lemma callsWithin_app paths a b :
  callsWithin srv apiKey paths a -> callsWithin srv apiKey paths b ->
  callsWithin srv apiKey paths (a ++ b).
Proof.
  unfold callsWithin. rewrite calls_app. intros. by apply Forall_app.
Qed.

Lemma callsWithin_concat paths us :
  Forall (callsWithin srv apiKey paths) us ->
  callsWithin srv apiKey paths (concat us).
Proof.
  induction 1; cbn [concat];
    [apply callsWithin_nil | by apply callsWithin_app].
Qed.

Lemma callsWithin_no_calls paths tr :
  calls tr = [] -> callsWithin srv apiKey paths tr.
Proof. unfold callsWithin. intros ->. constructor. Qed.

Lemma callsWithin_makeRequest paths u path :
  path ∈ paths ->
  callsWithin srv apiKey paths (events (makeRequest env srv u apiKey path)).
Proof.
  intros Hin. unfold callsWithin.
  destruct (calls_makeRequest u path) as [-> | ->]; [constructor|].
  repeat constructor. cbn. by exists path.
Qed.

Lemma calls_handleSystemConnections :
  calls (events (handleSystemConnections env srv apiKey))
  = calls (events (makeRequest env srv UConnections apiKey
                     "rest/system/connections")).
Proof.
  destruct (handleSystemConnections_cases env srv apiKey)
    as [(e & _ & ->) | (resp & stats & Hf & Hd & _)]; [done|].
  unfold handleSystemConnections.
  rewrite events_bind, Hf, Hd, calls_app, events_bind, calls_app.
  rewrite events_bind, calls_app.
  rewrite (calls_no_requests _ (requests_loop updated connectionLine _)).
  cbn. by rewrite app_nil_r.
Qed.

Lemma callsWithin_handleDevices paths :
  "rest/config/devices" ∈ paths -> "rest/stats/device" ∈ paths ->
  callsWithin srv apiKey paths (events (handleDevices env srv apiKey)).
Proof.
  intros Hc Hs.
  destruct (handleDevices_cases env srv apiKey)
    as [(e & _ & ->) | [(e & _ & ->)
                       | (r1 & cf & r2 & st & H1 & H2 & H3 & H4 & _)]].
  - by apply callsWithin_makeRequest.
  - apply callsWithin_app; by apply callsWithin_makeRequest.
  - unfold handleDevices.
    rewrite events_bind, H1, H2, events_bind, H3, H4.
    apply callsWithin_app; [by apply callsWithin_makeRequest|].
    apply callsWithin_app; [by apply callsWithin_makeRequest|].
    apply callsWithin_no_calls.
    rewrite events_bind, calls_app, events_bind, calls_app.
    rewrite (calls_no_requests _
               (requests_loop seen (deviceLine (buildDeviceNames cf)) _)).
    reflexivity.
Qed.

Lemma calls_handleReport :
  calls (events (handleReport env srv apiKey))
  = calls (events (makeRequest env srv UReport apiKey "rest/svc/report")).
Proof.
  unfold handleReport. rewrite events_bind, calls_app.
  destruct (value (makeRequest env srv UReport apiKey _)) as [e|resp];
    [cbn; by rewrite app_nil_r|].
  destruct (decodeReport env (rs_Body resp)); cbn; by rewrite app_nil_r.
Qed.

Lemma calls_handleFolderStats i folder :
  calls (events (handleFolderStats env srv i apiKey folder))
  = calls (events (makeRequest env srv (UFolderStats i) apiKey
                     (statusPath folder))).
Proof.
  rewrite handleFolderStats_events, calls_app.
  destruct (fetchFolderStats env srv apiKey i folder); cbn;
    by rewrite app_nil_r.
Qed.

Lemma callsWithin_spawned paths folderConfig :
  Forall (fun folder => statusPath folder ∈ paths) folderConfig ->
  Forall (callsWithin srv apiKey paths)
         (spawnFolderStats env srv apiKey folderConfig).
Proof.
  intros Hp. apply Forall_forall. intros u Hu. unfold spawnFolderStats in Hu.
  apply list_elem_of_lookup in Hu as [i Hi].
  rewrite list_lookup_imap in Hi.
  destruct (folderConfig !! i) as [folder|] eqn:Hf; [|done].
  injection Hi as <-.
  change (Forall (apiCall srv apiKey paths)
            (calls (events (handleFolderStats env srv i apiKey folder)))).
  rewrite calls_handleFolderStats.
  apply callsWithin_makeRequest.
  apply (proj1 (Forall_forall _ _) Hp).
  apply list_elem_of_lookup. by exists i.
Qed.

End Calls.

(** Every call of a run is an API call for one of the run's endpoints. *)
Lemma Runs_callsWithin env f tr code :
  apiKeyFlag f <> "" ->
  Runs env f tr code ->
  callsWithin (server f) (apiKeyFlag f) (endpoints env f) tr.
Proof.
  intros Hkey Hrun. unfold callsWithin.
  rewrite (Runs_events env f tr code Hkey Hrun).
  fold (callsWithin (server f) (apiKeyFlag f) (endpoints env f)).
  set (srv := server f). set (apiKey := apiKeyFlag f).
  assert (Hfixed : forall path,
            path ∈ ["rest/config/folders"; "rest/system/connections";
                    "rest/config/devices"; "rest/stats/device"] ->
            path ∈ endpoints env f).
  { intros path Hp. unfold endpoints. apply elem_of_app. by left. }
  apply callsWithin_app; [|apply callsWithin_app; [|apply callsWithin_app]].
  - unfold runThread. rewrite own_wrapHandler, children_wrapHandler.
    apply callsWithin_app; [apply callsWithin_app|].
    + rewrite handleFolders_events. apply callsWithin_makeRequest.
      apply Hfixed. set_solver.
    + apply callsWithin_no_calls, calls_failureReport.
    + apply callsWithin_concat. rewrite handleFolders_children.
      destruct (fetchFolders env srv apiKey) as [e|folderConfig] eqn:Hff;
        [constructor|].
      apply callsWithin_spawned. apply Forall_forall. intros folder Hin.
      unfold endpoints. fold srv apiKey. rewrite Hff.
      apply elem_of_app. right. apply elem_of_app. right.
      apply list_elem_of_fmap. by exists folder.
  - rewrite runThread_plain. apply callsWithin_app.
    + unfold callsWithin. rewrite calls_handleSystemConnections.
      apply callsWithin_makeRequest, Hfixed. set_solver.
    + apply callsWithin_no_calls, calls_failureReport.
  - rewrite runThread_plain. apply callsWithin_app.
    + apply callsWithin_handleDevices; apply Hfixed; set_solver.
    + apply callsWithin_no_calls, calls_failureReport.
  - destruct (useFullReportFlag f) eqn:Hflag; [|apply callsWithin_nil].
    rewrite runThread_plain. apply callsWithin_app.
    + unfold callsWithin. rewrite calls_handleReport.
      apply callsWithin_makeRequest. unfold endpoints. rewrite Hflag.
      apply elem_of_app. right. apply elem_of_app. left. set_solver.
    + apply callsWithin_no_calls, calls_failureReport.
Qed.

Lemma elem_of_calls t req tr : HttpDo t req ∈ tr -> (t, req) ∈ calls tr.
Proof.
  intros H. unfold calls. apply list_elem_of_omap. by exists (HttpDo t req).
Qed.

(** X7: every request of a run is made the same way: a GET, on a client
    with a timeout of 2 seconds, carrying the API key of the command line
    as its only header, for the server of the command line followed by a
    slash and one of the run's endpoints: the four fixed paths, the report
    path if the flag is set, or the status path of a folder of the decoded
    folder list. *)
Theorem X7_every_request_is_an_api_call env f tr code timeout req :
  apiKeyFlag f <> "" ->
  Runs env f tr code ->
  HttpDo timeout req ∈ tr ->
  timeout = 2000000000 /\
  rq_Method req = "GET" /\
  rq_Header req = [("X-API-Key", apiKeyFlag f)] /\
  exists path, path ∈ endpoints env f /\
               rq_URL req = server f +:+ "/" +:+ path.
Proof.
  intros Hkey Hrun Hin.
  pose proof (Runs_callsWithin env f tr code Hkey Hrun) as Hall.
  apply elem_of_calls in Hin.
  destruct (proj1 (Forall_forall _ _) Hall _ Hin) as [Ht (path & Hp & Hreq)].
  cbn [fst snd] in Ht, Hreq. subst req.
  split_and!; [done | done | done |]. by exists path.
Qed.

(** The scripted daemon: the status request for folder [a]. *)
Lemma X7_every_request_is_an_api_call_witness :
  2000000000 = 2000000000 /\
  rq_Method (apiRequest Mock.base "secret" "rest/db/status?folder=a")
  = "GET" /\
  rq_Header (apiRequest Mock.base "secret" "rest/db/status?folder=a")
  = [("X-API-Key", apiKeyFlag (Mock.flags false))] /\
  exists path, path ∈ endpoints (Mock.env true true) (Mock.flags false) /\
               rq_URL (apiRequest Mock.base "secret"
                         "rest/db/status?folder=a")
               = server (Mock.flags false) +:+ "/" +:+ path.
Proof.
  apply (X7_every_request_is_an_api_call (Mock.env true true)
           (Mock.flags false)
           (main (Mock.env true true) (Mock.flags false)).1
           (main (Mock.env true true) (Mock.flags false)).2).
  - discriminate.
  - apply main_Runs.
  - apply list_elem_of_In. vm_compute. tauto.
Defined.

Lemma append_inj_l (p a b : string) : p +:+ a = p +:+ b -> a = b.
Proof.
  induction p as [|c p IH]; [done|]. cbn. intros [= H]. by apply IH.
Qed.

(** X8: without [-use-full-report] no run ever asks for
    [rest/svc/report]. *)
Theorem X8_no_report_request_without_flag env f tr code timeout req :
  apiKeyFlag f <> "" ->
  useFullReportFlag f = false ->
  Runs env f tr code ->
  HttpDo timeout req ∈ tr ->
  rq_URL req <> server f +:+ "/" +:+ "rest/svc/report".
Proof.
  intros Hkey Hflag Hrun Hin.
  pose proof (Runs_callsWithin env f tr code Hkey Hrun) as Hall.
  apply elem_of_calls in Hin.
  destruct (proj1 (Forall_forall _ _) Hall _ Hin) as [_ (path & Hp & Hreq)].
  cbn [snd] in Hreq. subst req. cbn [rq_URL apiRequest].
  intros E. apply append_inj_l in E. apply (append_inj_l "/") in E.
  subst path.
  unfold endpoints in Hp. rewrite Hflag in Hp. cbn [app] in Hp.
  repeat (apply elem_of_cons in Hp as [Hp|Hp]; [discriminate|]).
  destruct (fetchFolders env (server f) (apiKeyFlag f)) as [e|folderConfig].
  - by apply elem_of_nil in Hp.
  - apply list_elem_of_fmap in Hp as (folder & Hp & _).
    unfold statusPath in Hp. cbn in Hp. discriminate.
Qed.

Lemma X8_no_report_request_without_flag_witness :
  rq_URL (apiRequest Mock.base "secret" "rest/stats/device")
  <> server (Mock.flags false) +:+ "/" +:+ "rest/svc/report".
Proof.
  apply (X8_no_report_request_without_flag (Mock.env true true)
           (Mock.flags false)
           (main (Mock.env true true) (Mock.flags false)).1
           (main (Mock.env true true) (Mock.flags false)).2
           2000000000).
  - discriminate.
  - reflexivity.
  - apply main_Runs.
  - apply list_elem_of_In. vm_compute. tauto.
Defined.

Section CallCounts.

Variables (env : Env) (srv apiKey : string).





End CallCounts.



Example mock_request_count :
  length (requests (main (Mock.env true true) (Mock.flags true)).1) = 8%nat /\
  folderCount (Mock.env true true) (Mock.flags true) = 3%nat.
Proof. vm_compute. split; reflexivity. Qed.

(* ===================================================================== *)
(** ** Further properties: what goes to standard error *)
(* ===================================================================== *)

Lemma stderrWrites_failureReport err :
  stderrWrites (failureReport err) = failureTexts err.
Proof. by destruct err. Qed.

Section StderrFacts.

Variables (env : Env) (srv apiKey : string).

(** The handlers themselves never write to standard error. *)
Lemma stderr_handleSystemConnections :
  stderrWrites (events (handleSystemConnections env srv apiKey)) = [].
Proof.
  destruct (handleSystemConnections_cases env srv apiKey)
    as [(e & _ & ->) | (resp & stats & Hf & Hd & _)];
    [apply makeRequest_stderr|].
  unfold handleSystemConnections.
  rewrite events_bind, Hf, Hd, stderrWrites_app, makeRequest_stderr.
  rewrite events_bind, stderrWrites_app, events_bind, stderrWrites_app.
  by rewrite (stderrWrites_loop updated connectionLine).
Qed.

Lemma stderr_handleDevices :
  stderrWrites (events (handleDevices env srv apiKey)) = [].
Proof.
  destruct (handleDevices_cases env srv apiKey)
    as [(e & _ & ->) | [(e & _ & ->)
                       | (r1 & cf & r2 & st & H1 & H2 & H3 & H4 & _)]].
  - apply makeRequest_stderr.
  - by rewrite stderrWrites_app, !makeRequest_stderr.
  - unfold handleDevices.
    rewrite events_bind, H1, H2, stderrWrites_app, makeRequest_stderr.
    rewrite events_bind, H3, H4, stderrWrites_app, makeRequest_stderr.
    rewrite events_bind, stderrWrites_app, events_bind, stderrWrites_app.
    by rewrite (stderrWrites_loop seen (deviceLine (buildDeviceNames cf))).
Qed.

Lemma stderr_handleReport :
  stderrWrites (events (handleReport env srv apiKey)) = [].
Proof.
  unfold handleReport.
  rewrite events_bind, stderrWrites_app, makeRequest_stderr.
  destruct (value (makeRequest env srv UReport apiKey _)) as [e|resp];
    [reflexivity|].
  by destruct (decodeReport env (rs_Body resp)).
Qed.

Lemma stderr_plain (h : string -> IO (option error)) :
  stderrWrites (events (h apiKey)) = [] ->
  stderrWrites (runThread (wrapHandler (plain h) apiKey))
  = failureTexts (value (h apiKey)).
Proof.
  intros H. rewrite runThread_plain, stderrWrites_app, H.
  apply stderrWrites_failureReport.
Qed.

(** A folder goroutine writes its one failure message, if any. *)
Lemma stderr_folder_unit i folder :
  stderrWrites (events (handleFolderStats env srv i apiKey folder))
  = match folderFailure env srv apiKey i folder with
    | Some msg => [msg]
    | None => []
    end.
Proof.
  rewrite handleFolderStats_events, stderrWrites_app, makeRequest_stderr.
  unfold folderFailure.
  by destruct (fetchFolderStats env srv apiKey i folder).
Qed.

Lemma stderr_spawned_from (g : nat -> nat) folderConfig :
  stderrWrites
    (concat (imap (fun i folder =>
                     events (handleFolderStats env srv (g i) apiKey folder))
                  folderConfig))
  = omap id (imap (fun i folder => folderFailure env srv apiKey (g i) folder)
                  folderConfig).
Proof.
  revert g. induction folderConfig as [|folder rest IH]; intros g;
    [reflexivity|].
  rewrite !imap_cons. cbn [concat].
  rewrite stderrWrites_app, stderr_folder_unit.
  specialize (IH (g ∘ S)). unfold compose in *. rewrite IH.
  change (omap id (?x :: ?l))
    with (match id x with Some y => y :: omap id l | None => omap id l end).
  unfold id at 2. by destruct (folderFailure env srv apiKey (g 0%nat) folder).
Qed.

Lemma stderr_spawned folderConfig :
  stderrWrites (concat (spawnFolderStats env srv apiKey folderConfig))
  = folderFailures env srv apiKey folderConfig.
Proof. apply (stderr_spawned_from (fun i => i)). Qed.

Lemma stderr_folders_thread :
  stderrWrites (runThread (wrapHandler (handleFolders env srv) apiKey))
  = failureTexts (value (handleFolders env srv apiKey).1)
    ++ match fetchFolders env srv apiKey with
       | inr folderConfig => folderFailures env srv apiKey folderConfig
       | inl _ => []
       end.
Proof.
  unfold runThread. rewrite own_wrapHandler, children_wrapHandler.
  rewrite !stderrWrites_app, handleFolders_events, makeRequest_stderr.
  rewrite stderrWrites_failureReport, handleFolders_children. cbn [app].
  f_equal. destruct (fetchFolders env srv apiKey); [done|].
  apply stderr_spawned.
Qed.


End StderrFacts.

(** What a run with an API key writes to standard error. *)
Lemma Runs_stderr env f tr code :
  apiKeyFlag f <> "" ->
  Runs env f tr code ->
  stderrWrites tr ≡ₚ expectedStderr env f.
Proof.
  intros Hkey Hrun. rewrite (Runs_events env f tr code Hkey Hrun).
  rewrite !stderrWrites_app, stderr_folders_thread.
  rewrite (stderr_plain _ _ (stderr_handleSystemConnections _ _ _)).
  rewrite (stderr_plain _ _ (stderr_handleDevices _ _ _)).
  unfold expectedStderr. rewrite <- !(assoc_L (++)).
  do 4 f_equiv.
  destruct (useFullReportFlag f); [|done].
  by rewrite (stderr_plain _ _ (stderr_handleReport _ _ _)).
Qed.

(** X10: a folder whose status cannot be fetched or decoded is reported
    by its own goroutine and by nobody else: in every run the message
    ([Unable to read status for id: cause] for a request failure,
    [invalid response body: cause] for a decoding failure) is on standard
    error, and the folder handler itself still returns no error. *)
Theorem X10_folder_failure_reported_locally
    env f resp folderConfig tr code i folder msg :
  apiKeyFlag f <> "" ->
  value (makeRequest env (server f) UFolders (apiKeyFlag f)
           "rest/config/folders") = inr resp ->
  decodeFolderConfigs env (rs_Body resp) = inr folderConfig ->
  Runs env f tr code ->
  folderConfig !! i = Some folder ->
  fetchFolderStats env (server f) (apiKeyFlag f) i folder = inl msg ->
  msg ∈ stderrWrites tr /\
  value (handleFolders env (server f) (apiKeyFlag f)).1 = None /\
  ((exists cause,
      msg = "Unable to read status for " +:+ fc_ID folder
            +:+ ": " +:+ cause) \/
   (exists cause, msg = "invalid response body: " +:+ cause)).
Proof.
  intros Hkey Hf Hd Hrun Hi Hs.
  assert (Hfetch : fetchFolders env (server f) (apiKeyFlag f)
                   = inr folderConfig).
  { unfold fetchFolders. by rewrite Hf, Hd. }
  split_and!.
  - rewrite (Runs_stderr env f tr code Hkey Hrun). unfold expectedStderr.
    rewrite Hfetch. apply elem_of_app. right. apply elem_of_app. left.
    unfold folderFailures. apply list_elem_of_omap.
    exists (Some msg). split; [|done].
    apply list_elem_of_lookup. exists i.
    rewrite list_lookup_imap, Hi. cbn. unfold folderFailure. by rewrite Hs.
  - by rewrite handleFolders_value, Hfetch.
  - unfold fetchFolderStats in Hs.
    destruct (value (makeRequest env (server f) (UFolderStats i)
                       (apiKeyFlag f) _)) as [cause|resp'].
    + left. exists cause. by injection Hs as <-.
    + destruct (decodeFolderStats env (rs_Body resp')) as [cause|stats];
        [|discriminate].
      right. exists cause. by injection Hs as <-.
Qed.

(** The scripted daemon: the status of folder [d] does not answer. *)
Lemma X10_folder_failure_reported_locally_witness :
  let msg := "Unable to read status for d: HTTP request failed: "
             +:+ "context deadline exceeded" in
  let folder := mkFolderConfig "d" "Music" 60 "sendreceive" in
  msg ∈ stderrWrites (main (Mock.env true true) (Mock.flags false)).1 /\
  value (handleFolders (Mock.env true true) Mock.base "secret").1 = None /\
  ((exists cause,
      msg = "Unable to read status for " +:+ fc_ID folder
            +:+ ": " +:+ cause) \/
   (exists cause, msg = "invalid response body: " +:+ cause)).
Proof.
  apply (X10_folder_failure_reported_locally (Mock.env true true)
           (Mock.flags false) (mkResponse 200 "folders") Mock.folders
           (main (Mock.env true true) (Mock.flags false)).1
           (main (Mock.env true true) (Mock.flags false)).2
           2%nat (mkFolderConfig "d" "Music" 60 "sendreceive")).
  - discriminate.
  - vm_compute. reflexivity.
  - vm_compute. reflexivity.
  - apply main_Runs.
  - reflexivity.
  - vm_compute. reflexivity.
Defined.






(* ===================================================================== *)
(** ** Further properties: the [last_seen] field *)
(* ===================================================================== *)

Module GoTimeMore.
Import GoTime.




End GoTimeMore.



(* ===================================================================== *)
(** ** Further properties: the shape of the printed lines *)
(* ===================================================================== *)





Section LineShapes.

Variables (env : Env) (srv apiKey : string).







End LineShapes.



(* ===================================================================== *)
(** ** Further properties: every folder is accounted for *)
(* ===================================================================== *)

(** The folder records of a run. *)
Lemma Runs_folder_lines env f tr code folderConfig :
  apiKeyFlag f <> "" ->
  fetchFolders env (server f) (apiKeyFlag f) = inr folderConfig ->
  Runs env f tr code ->
  linesOf "syncthing_folder" tr
  ≡ₚ folderRecords env (server f) (apiKeyFlag f) folderConfig.
Proof.
  intros Hkey Hfetch Hrun.
  rewrite (Runs_linesOf env f tr code "syncthing_folder" Hkey Hrun).
  rewrite (emitsOnly_other _ _ _ (handleSystemConnections_emitsOnly _ _ _))
    by other_measurement.
  rewrite (emitsOnly_other _ _ _ (handleDevices_emitsOnly _ _ _))
    by other_measurement.
  assert (Hrep : (if useFullReportFlag f
                  then linesOf "syncthing_folder"
                         (events (handleReport env (server f)
                                    (apiKeyFlag f)))
                  else []) = []).
  { destruct (useFullReportFlag f); [|done].
    by rewrite (emitsOnly_other _ _ _ (handleReport_emitsOnly _ _ _))
      by other_measurement. }
  rewrite Hrep. cbn [app]. rewrite app_nil_r.
  rewrite handleFolders_children, Hfetch.
  by rewrite linesOf_spawned.
Qed.

(** Each folder gives a record or a failure message, never both. *)
Lemma record_or_failure env srv apiKey i folder :
  (exists l, folderRecord env srv apiKey i folder = Some l /\
             folderFailure env srv apiKey i folder = None) \/
  (exists msg, folderRecord env srv apiKey i folder = None /\
               folderFailure env srv apiKey i folder = Some msg).
Proof.
  unfold folderRecord, folderFailure.
  destruct (fetchFolderStats env srv apiKey i folder) as [msg|stats];
    [right | left]; eauto.
Qed.

Lemma omap_id_cons {A} (x : option A) (l : list (option A)) :
  omap id (x :: l)
  = match x with Some y => y :: omap id l | None => omap id l end.
Proof. reflexivity. Qed.

Lemma length_records_failures_from env srv apiKey (g : nat -> nat)
    (folderConfig : list FolderConfig) :
  (length (omap id (imap (fun i folder =>
                            folderRecord env srv apiKey (g i) folder)
                         folderConfig))
   + length (omap id (imap (fun i folder =>
                              folderFailure env srv apiKey (g i) folder)
                           folderConfig))
   = length folderConfig)%nat.
Proof.
  revert g. induction folderConfig as [|folder rest IH]; intros g;
    [reflexivity|].
  rewrite !imap_cons, !omap_id_cons. specialize (IH (g ∘ S)).
  unfold compose in *.
  destruct (record_or_failure env srv apiKey (g 0%nat) folder)
    as [(l & -> & ->) | (msg & -> & ->)]; cbn [length]; lia.
Qed.

(** X15: every folder of the decoded list is accounted for exactly once:
    in every run the number of [syncthing_folder] lines and the number of
    folder failure messages add up to the number of folders, and each of
    these messages is on standard error. *)
Theorem X15_every_folder_accounted_for
    env f resp folderConfig tr code :
  apiKeyFlag f <> "" ->
  value (makeRequest env (server f) UFolders (apiKeyFlag f)
           "rest/config/folders") = inr resp ->
  decodeFolderConfigs env (rs_Body resp) = inr folderConfig ->
  Runs env f tr code ->
  let failures := folderFailures env (server f) (apiKeyFlag f) folderConfig in
  (length (linesOf "syncthing_folder" tr) + length failures
   = length folderConfig)%nat /\
  (forall msg, msg ∈ failures -> msg ∈ stderrWrites tr).
Proof.
  intros Hkey Hf Hd Hrun failures.
  assert (Hfetch : fetchFolders env (server f) (apiKeyFlag f)
                   = inr folderConfig).
  { unfold fetchFolders. by rewrite Hf, Hd. }
  split.
  - rewrite (Runs_folder_lines env f tr code folderConfig Hkey Hfetch Hrun).
    apply (length_records_failures_from env (server f) (apiKeyFlag f)
             (fun i => i)).
  - intros msg Hmsg.
    rewrite (Runs_stderr env f tr code Hkey Hrun). unfold expectedStderr.
    rewrite Hfetch. apply elem_of_app. right. apply elem_of_app. by left.
Qed.

(** The scripted daemon: three folders, two records and one failure. *)
Lemma X15_every_folder_accounted_for_witness :
  let env := Mock.env true true in
  let f := Mock.flags false in
  let tr := (main env f).1 in
  let failures := folderFailures env (server f) (apiKeyFlag f) Mock.folders in
  (length (linesOf "syncthing_folder" tr) + length failures
   = length Mock.folders)%nat /\
  (forall msg, msg ∈ failures -> msg ∈ stderrWrites tr).
Proof.
  apply (X15_every_folder_accounted_for (Mock.env true true)
           (Mock.flags false) (mkResponse 200 "folders") Mock.folders
           (main (Mock.env true true) (Mock.flags false)).1
           (main (Mock.env true true) (Mock.flags false)).2).
  - discriminate.
  - vm_compute. reflexivity.
  - vm_compute. reflexivity.
  - apply main_Runs.
Defined.

(* ===================================================================== *)
(** ** Further properties: empty lists and maps *)
(* ===================================================================== *)




(* ===================================================================== *)
(** ** Further properties: the order of a handler's lines *)
(* ===================================================================== *)

Section InterleaveOrder.

Context {A B : Type}.
Variable pick : A -> option B.

Lemma omap_cons (a : A) (l : list A) :
  omap pick (a :: l)
  = match pick a with Some b => b :: omap pick l | None => omap pick l end.
Proof. reflexivity. Qed.

(** Picking elements out of an interleaving interleaves what is picked
    out of each list. *)
Lemma Interleave_omap (us : list (list A)) (tr : list A) :
  Interleave us tr -> Interleave (map (omap pick) us) (omap pick tr).
Proof.
  induction 1 as [us Hnil | us1 a u us2 tr _ IH].
  - constructor. apply Forall_map. eapply Forall_impl; [exact Hnil|].
    by intros u ->.
  - rewrite map_app in IH |- *. cbn [map] in IH |- *.
    rewrite !omap_cons. destruct (pick a); [by constructor | exact IH].
Qed.

End InterleaveOrder.

Lemma all_nil_of_filter {A} (us : list (list A)) :
  filter (fun u => (0 < length u)%nat) us = [] -> Forall (fun u => u = []) us.
Proof.
  induction us as [|u us IH]; [constructor|].
  rewrite filter_cons. destruct u as [|a u].
  - rewrite decide_False by (cbn; lia). intros H. constructor; [done|].
    by apply IH.
  - rewrite decide_True by (cbn; lia). discriminate.
Qed.

(** When at most one of the lists is not empty, there is only one
    interleaving. *)
Lemma Interleave_lone {A} (us : list (list A)) (tr : list A) :
  Interleave us tr ->
  (length (filter (fun u => (0 < length u)%nat) us) <= 1)%nat ->
  tr = concat us.
Proof.
  induction 1 as [us Hnil | us1 a u us2 tr _ IH]; intros Hone.
  - by rewrite concat_all_nil.
  - rewrite filter_app, filter_cons_True, length_app in Hone by (cbn; lia).
    cbn [length] in Hone.
    assert (H1 : filter (fun u => (0 < length u)%nat) us1 = [])
      by (apply length_zero_iff_nil; lia).
    assert (H2 : filter (fun u => (0 < length u)%nat) us2 = [])
      by (apply length_zero_iff_nil; lia).
    rewrite IH.
    + rewrite !concat_app.
      rewrite (concat_all_nil us1 (all_nil_of_filter us1 H1)).
      reflexivity.
    + rewrite filter_app, filter_cons, H1, H2.
      destruct (decide (0 < length u)%nat); cbn; lia.
Qed.

Lemma Interleave_no_threads {A} (tr : list A) : Interleave [] tr -> tr = [].
Proof.
  inversion 1 as [|us1 a u us2 tr' _ Heq]; [done|].
  by destruct us1.
Qed.

Lemma linesIn_app ms a b : linesIn ms (a ++ b) = linesIn ms a ++ linesIn ms b.
Proof. apply omap_app. Qed.

#[export] Instance linesIn_perm ms : Proper ((≡ₚ) ==> (≡ₚ)) (linesIn ms).
Proof. intros a b H. unfold linesIn. by rewrite H. Qed.

(** A trace whose lines all have other measurements gives nothing. *)
Lemma linesIn_other ms ms' tr :
  emitsOnly ms' tr -> (forall m, m ∈ ms' -> m ∉ ms) -> linesIn ms tr = [].
Proof.
  unfold emitsOnly. intros H Hdisj.
  induction tr as [|e tr IH]; [reflexivity|].
  change (e :: tr) with ([e] ++ tr) in H |- *.
  rewrite stdoutLines_app in H. apply Forall_app in H as [He Htr].
  rewrite linesIn_app, (IH Htr), app_nil_r.
  destruct e as [| l | |]; try reflexivity.
  apply Forall_cons in He as [Hl _]. cbn.
  by rewrite bool_decide_eq_false_2 by (by apply Hdisj).
Qed.

(** A trace whose lines all have these measurements gives all of them. *)
Lemma linesIn_all ms tr : emitsOnly ms tr -> linesIn ms tr = stdoutLines tr.
Proof.
  unfold emitsOnly. intros H.
  induction tr as [|e tr IH]; [reflexivity|].
  change (e :: tr) with ([e] ++ tr) in H |- *.
  rewrite stdoutLines_app in H |- *. apply Forall_app in H as [He Htr].
  rewrite linesIn_app, (IH Htr). f_equal.
  destruct e as [| l | |]; try reflexivity.
  apply Forall_cons in He as [Hl _]. cbn.
  by rewrite bool_decide_eq_true_2.
Qed.

(** What a goroutine that starts no goroutine contributes is its own
    sequence of events. *)
Lemma ThreadRuns_plain apiKey (h : string -> IO (option error)) x :
  ThreadRuns (wrapHandler (plain h) apiKey) x ->
  x = runThread (wrapHandler (plain h) apiKey).
Proof.
  intros (y & Hy & ->). rewrite children_wrapHandler in Hy.
  cbn [plain snd] in Hy. apply Interleave_no_threads in Hy as ->.
  unfold runThread. by rewrite children_wrapHandler.
Qed.

Lemma linesIn_perm_nil ms x y :
  x ≡ₚ y -> linesIn ms y = [] -> linesIn ms x = [].
Proof. intros Hp Hy. apply Permutation_nil_r. by rewrite Hp, Hy. Qed.

Lemma filter_all_nil {A} (us : list (list A)) :
  Forall (fun u => u = []) us ->
  filter (fun u => (0 < length u)%nat) us = [].
Proof.
  induction 1 as [|u us -> _ IH]; [done|].
  rewrite filter_cons_False by (cbn; lia). exact IH.
Qed.

Lemma lone_count {A} (pre post : list (list A)) (L : list A) :
  Forall (fun u => u = []) pre ->
  Forall (fun u => u = []) post ->
  (length (filter (fun u => (0 < length u)%nat) (pre ++ L :: post))
   <= 1)%nat.
Proof.
  intros Hpre Hpost.
  rewrite filter_app, filter_cons, (filter_all_nil _ Hpre),
    (filter_all_nil _ Hpost).
  destruct (decide (0 < length L)%nat); cbn; lia.
Qed.

Lemma linesIn_lone ms (us : list (list Event)) (tr : list Event) :
  Interleave us tr ->
  (length (filter (fun u => (0 < length u)%nat) (map (linesIn ms) us))
   <= 1)%nat ->
  linesIn ms tr = concat (map (linesIn ms) us).
Proof.
  intros Hil Hone. apply Interleave_lone; [|exact Hone].
  by apply (Interleave_omap _ us tr).
Qed.

(** The goroutines of a run with an API key, and what each contributes. *)
Lemma Runs_threads env f tr code :
  apiKeyFlag f <> "" ->
  Runs env f tr code ->
  let srv := server f in
  let apiKey := apiKeyFlag f in
  exists xF xR,
    xF ≡ₚ runThread (wrapHandler (handleFolders env srv) apiKey) /\
    xR = (if useFullReportFlag f
          then [runThread (wrapHandler (plain (handleReport env srv)) apiKey)]
          else []) /\
    Interleave
      ([xF;
        runThread (wrapHandler (plain (handleSystemConnections env srv))
                               apiKey);
        runThread (wrapHandler (plain (handleDevices env srv)) apiKey)]
       ++ xR) tr.
Proof.
  intros Hkey Hrun srv apiKey. unfold Runs in Hrun.
  destruct (String.eqb_spec (apiKeyFlag f) "") as [|_]; [done|].
  destruct Hrun as (trs & Hts & Hil & _).
  unfold mainThreads, allHandlers in Hts. rewrite map_app in Hts.
  cbn [map] in Hts.
  apply Forall2_app_inv_l in Hts as (k1 & k2 & H123 & Hopt & ->).
  apply Forall2_cons_inv_l in H123 as (xF & r1 & HF & H23 & ->).
  apply Forall2_cons_inv_l in H23 as (xC & r2 & HC & H3 & ->).
  apply Forall2_cons_inv_l in H3 as (xD & r3 & HD & Hnil & ->).
  apply Forall2_nil_inv_l in Hnil as ->.
  apply ThreadRuns_plain in HC as ->. apply ThreadRuns_plain in HD as ->.
  exists xF, k2. split_and!; [by apply ThreadRuns_perm | | exact Hil].
  fold srv apiKey in Hopt. destruct (useFullReportFlag f); cbn [map] in Hopt.
  - apply Forall2_cons_inv_l in Hopt as (xR & r4 & HR & Hnil & ->).
    apply Forall2_nil_inv_l in Hnil as ->.
    by apply ThreadRuns_plain in HR as ->.
  - by apply Forall2_nil_inv_l in Hopt as ->.
Qed.

(** X17: the lines of one handler are never reordered.  In every run the
    connection lines (totals and per-peer), read in the order of the run,
    are the lines of the connections handler in the order it printed
    them, so the totals line comes first; the same holds for the device
    lines and the devices handler. *)
Theorem X17_handler_lines_keep_their_order env f tr code :
  apiKeyFlag f <> "" ->
  Runs env f tr code ->
  let c := handleSystemConnections env (server f) (apiKeyFlag f) in
  let d := handleDevices env (server f) (apiKeyFlag f) in
  linesIn ["syncthing_connection_totals"; "syncthing_connection"] tr
  = stdoutLines (events c) /\
  linesIn ["syncthing_device_totals"; "syncthing_device"] tr
  = stdoutLines (events d) /\
  (value c = None ->
   exists total rest,
     measurement total = "syncthing_connection_totals" /\
     linesIn ["syncthing_connection_totals"; "syncthing_connection"] tr
     = total :: rest /\
     Forall (fun l => measurement l = "syncthing_connection") rest).
Proof.
  intros Hkey Hrun c d.
  destruct (Runs_threads env f tr code Hkey Hrun)
    as (xF & xR & HxF & HxR & Hil).
  set (srv := server f) in *. set (apiKey := apiKeyFlag f) in *.
  assert (HF : forall ms,
             (forall m, m ∈ ["syncthing_folder"] -> m ∉ ms) ->
             linesIn ms xF = []).
  { intros ms Hms. apply (linesIn_perm_nil _ _ _ HxF).
    apply (linesIn_other _ _ _ (folders_thread_emitsOnly env srv apiKey) Hms). }
  assert (HR : forall ms,
             (forall m, m ∈ ["syncthing_report"] -> m ∉ ms) ->
             map (linesIn ms) xR = if useFullReportFlag f then [[]] else []).
  { intros ms Hms. rewrite HxR. destruct (useFullReportFlag f); [|done].
    cbn [map]. f_equal.
    apply (linesIn_other ms ["syncthing_report"]); [|exact Hms].
    apply plain_emitsOnly, handleReport_emitsOnly. }
  assert (HC : linesIn ["syncthing_connection_totals"; "syncthing_connection"]
                 (runThread (wrapHandler
                               (plain (handleSystemConnections env srv))
                               apiKey))
               = stdoutLines (events c)).
  { rewrite linesIn_all
      by apply plain_emitsOnly, handleSystemConnections_emitsOnly.
    rewrite runThread_plain, stdoutLines_app.
    destruct (value (handleSystemConnections env srv apiKey));
      by rewrite app_nil_r. }
  assert (HD : linesIn ["syncthing_device_totals"; "syncthing_device"]
                 (runThread (wrapHandler (plain (handleDevices env srv))
                                         apiKey))
               = stdoutLines (events d)).
  { rewrite linesIn_all by apply plain_emitsOnly, handleDevices_emitsOnly.
    rewrite runThread_plain, stdoutLines_app.
    destruct (value (handleDevices env srv apiKey)); by rewrite app_nil_r. }
  assert (Hconn : linesIn ["syncthing_connection_totals";
                           "syncthing_connection"] tr
                  = stdoutLines (events c)).
  { rewrite (linesIn_lone _ _ _ Hil); rewrite map_app; cbn [map];
      rewrite HF, HR, HC
        by disjoint_measurements;
      rewrite (linesIn_other _ _ _
                 (plain_emitsOnly _ _ _
                    (handleDevices_emitsOnly env srv apiKey)))
        by disjoint_measurements.
    - destruct (useFullReportFlag f); cbn; by rewrite !app_nil_r.
    - apply (lone_count [[]] ([[]] ++ _)); [by repeat constructor|].
      destruct (useFullReportFlag f); by repeat constructor. }
  split_and!.
  - exact Hconn.
  - rewrite (linesIn_lone _ _ _ Hil); rewrite map_app; cbn [map];
      rewrite HF, HR, HD
        by disjoint_measurements;
      rewrite (linesIn_other _ _ _
                 (plain_emitsOnly _ _ _
                    (handleSystemConnections_emitsOnly env srv apiKey)))
        by disjoint_measurements.
    + destruct (useFullReportFlag f); cbn; by rewrite !app_nil_r.
    + apply (lone_count [[]; []] _); [by repeat constructor|].
      destruct (useFullReportFlag f); by repeat constructor.
  - intros Hv. rewrite Hconn.
    destruct (handleSystemConnections_cases env srv apiKey)
      as [(e & He & _) | (resp & stats & Hf & Hd & _)];
      [unfold c in Hv; congruence|].
    unfold c. rewrite (handleSystemConnections_stdout _ _ _ _ _ Hf Hd).
    eexists _, _. split_and!; [| reflexivity |]; [reflexivity|].
    apply Forall_forall. intros l Hl.
    by apply (measurement_kept_connection env stats l).
Qed.

(** The scripted daemon. *)
Lemma X17_handler_lines_keep_their_order_witness :
  let env := Mock.env true true in
  let f := Mock.flags true in
  let tr := (main env f).1 in
  let c := handleSystemConnections env (server f) (apiKeyFlag f) in
  let d := handleDevices env (server f) (apiKeyFlag f) in
  linesIn ["syncthing_connection_totals"; "syncthing_connection"] tr
  = stdoutLines (events c) /\
  linesIn ["syncthing_device_totals"; "syncthing_device"] tr
  = stdoutLines (events d) /\
  (value c = None ->
   exists total rest,
     measurement total = "syncthing_connection_totals" /\
     linesIn ["syncthing_connection_totals"; "syncthing_connection"] tr
     = total :: rest /\
     Forall (fun l => measurement l = "syncthing_connection") rest).
Proof.
  apply (X17_handler_lines_keep_their_order (Mock.env true true)
           (Mock.flags true)
           (main (Mock.env true true) (Mock.flags true)).1
           (main (Mock.env true true) (Mock.flags true)).2).
  - discriminate.
  - apply main_Runs.
Defined.
